(** * Verification of the rate-limited ingestion and order pipeline

    A shallow embedding of the TypeScript services of the repository:

    - [SlidingWindow]: [src/utils/RateLimiter.ts] (sliding-window log);
    - [TokenBucket]:   [src/Services/RateLimiter.ts] (token bucket);
    - [Retry]:         [SolanaService.retryWithBackoff];
    - [Poller]:        [SolanaService.processNewTransactions];
    - [Risk]:          [RiskManagementService];
    - [Market]:        the helpers of [MarketAnalysisService];
    - [Sentiment]:     [TwitterService.analyzeSentiment];
    - [Orders]:        [OrderManagementService].

    JavaScript numbers are idealised: millisecond clocks and counters are
    integers ([Z]), prices, amounts and scores are exact rationals ([Q]).
    Rounding of IEEE doubles, [NaN] and the infinities are outside the
    model.  [Date.now()] is an input of every operation that reads the
    clock, and a sleep shows only in the next reading.

    An [async] method is modelled as the function from the state at its
    call to the state at its return: calls run one at a time.  Only for the
    sliding-window limiter, whose body never suspends between its test and
    its update, are overlapping calls covered as well. *)

From Stdlib Require Import ZArith QArith Qround Qminmax Qabs Lqa Lia.
From Stdlib Require Import List String Ascii Bool.
From stdpp Require Import gmap strings list.
From Equations Require Import Equations.
Import ListNotations.

Local Open Scope Z_scope.

(** Comparisons of JavaScript numbers, as boolean functions on [Q]. *)
Definition Qleb (x y : Q) : bool := Qle_bool x y.
Definition Qltb (x y : Q) : bool := negb (Qle_bool y x).

(** ** Sliding-window rate limiter ([src/utils/RateLimiter.ts]) *)

Module SlidingWindow.

Record RateLimiter := mkLimiter {
  maxRequests : Z;
  interval : Z;
  timestamps : list Z
}.

(** [new RateLimiter(maxRequests, interval)] *)
Definition create (maxRequests interval : Z) : RateLimiter :=
  mkLimiter maxRequests interval [].

(** [this.timestamps.filter(timestamp => now - timestamp < this.interval)] *)
Definition prune (rl : RateLimiter) (now : Z) : list Z :=
  List.filter (fun timestamp => now - timestamp <? interval rl) (timestamps rl).

(** [interval - (now - timestamps[0])]; with no timestamp the JavaScript
    value is [NaN], for which [waitTime > 0] is false: no sleep, [None]. *)
Definition waitTime (rl : RateLimiter) (now : Z) : option Z :=
  match prune rl now with
  | oldestTimestamp :: _ => Some (interval rl - (now - oldestTimestamp))
  | [] => None
  end.

(** One execution of the body of [waitForSlot] at clock reading [now]:
    either the slot is taken ([true], [now] is pushed) or the caller has to
    wait and call again ([false]).  The body runs without suspension. *)
Definition trySlot (rl : RateLimiter) (now : Z) : RateLimiter * bool :=
  let kept := prune rl now in
  if Z.of_nat (length kept) >=? maxRequests rl
  then (mkLimiter (maxRequests rl) (interval rl) kept, false)
  else (mkLimiter (maxRequests rl) (interval rl) (kept ++ [now]), true).

(** [waitForSlot]: the recursion of the source re-reads the clock after
    each sleep.  [clock] is the sequence of readings still to come; the
    call returns the time of the grant, the readings left and the new
    state, or [None] while the caller is still suspended when the readings
    end. *)
Fixpoint waitForSlot (clock : list Z) (rl : RateLimiter)
  : option (Z * list Z * RateLimiter) :=
  match clock with
  | [] => None
  | now :: later =>
      match trySlot rl now with
      | (rl', true) => Some (now, later, rl')
      | (rl', false) => waitForSlot later rl'
      end
  end.

(** [n] calls of [waitForSlot], one after the other; the result lists the
    times at which permits were granted. *)
Fixpoint acquireAll (n : nat) (clock : list Z) (rl : RateLimiter)
  : list Z * RateLimiter :=
  match n with
  | O => ([], rl)
  | S n' =>
      match waitForSlot clock rl with
      | None => ([], rl)
      | Some (granted, later, rl') =>
          let '(grants, rl'') := acquireAll n' later rl' in
          (granted :: grants, rl'')
      end
  end.

(** Calls that overlap: the body of [waitForSlot] runs without suspension,
    so whatever the callers, the limiter goes through a sequence of
    executions of the body, one per clock reading.  The result lists the
    readings at which a permit was granted. *)
Fixpoint bodies (readings : list Z) (rl : RateLimiter) : list Z :=
  match readings with
  | [] => []
  | now :: later =>
      match trySlot rl now with
      | (rl', true) => now :: bodies later rl'
      | (rl', false) => bodies later rl'
      end
  end.

(** Readings of a clock that never runs backwards, starting from [prev]. *)
Fixpoint nondecreasing (prev : Z) (clock : list Z) : Prop :=
  match clock with
  | [] => True
  | now :: later => prev <= now /\ nondecreasing now later
  end.

(** Number of grants in the trailing window [(t - W, t]]. *)
Definition inWindow (W t : Z) (g : Z) : bool := (t - W <? g) && (g <=? t).
Definition grantsInWindow (W t : Z) (grants : list Z) : nat :=
  length (List.filter (inWindow W t) grants).

(** *** Invariants and sample data used by the proofs *)

(** A timestamp that [prune] keeps at clock reading [now]. *)
Definition recent (W now : Z) (timestamp : Z) : bool := now - timestamp <? W.

(** The invariant of the limiter after clock reading [last], with [past]
    the permits granted so far: [timestamps] still holds every grant that
    a later [prune] can keep, and no window is over capacity. *)
Definition Inv (last : Z) (rl : RateLimiter) (past : list Z) : Prop :=
  List.filter (recent (interval rl) last) past
  = List.filter (recent (interval rl) last) (timestamps rl)
  /\ forall t, (grantsInWindow (interval rl) t past <= Z.to_nat (maxRequests rl))%nat.

(** The limiter after a sequence of executions of the body, one per clock
    reading. *)
Definition stateAfter (readings : list Z) (rl : RateLimiter) : RateLimiter :=
  fold_left (fun rl now => fst (trySlot rl now)) readings rl.

End SlidingWindow.

(** ** Token-bucket rate limiter ([src/Services/RateLimiter.ts]) *)

Module TokenBucket.

Record RateLimiter := mkBucket {
  tokens : Q;
  lastRefill : Z;
  maxTokens : Q;
  refillRate : Q
}.

(** The constructor starts with a full bucket. *)
Definition create (maxTokens refillRate : Q) (now : Z) : RateLimiter :=
  mkBucket maxTokens now maxTokens refillRate.

(** [refill]: [Math.floor((timePassed * this.refillRate) / 1000)] tokens are
    added, capped at [maxTokens]; the clock is recorded only when at least
    one token was added. *)
Definition refillAmount (rl : RateLimiter) (now : Z) : Z :=
  let timePassed := now - lastRefill rl in
  Qfloor ((inject_Z timePassed * refillRate rl) / 1000).

Definition refill (rl : RateLimiter) (now : Z) : RateLimiter :=
  let refill := refillAmount rl now in
  if refill >? 0
  then mkBucket (Qmin (maxTokens rl) (tokens rl + inject_Z refill)) now
                (maxTokens rl) (refillRate rl)
  else rl.

(** [Math.ceil(1000 / this.refillRate)] *)
Definition waitTime (rl : RateLimiter) : Z := Qceiling (1000 / refillRate rl).

Definition takeTokens (rl : RateLimiter) (n : Q) : RateLimiter :=
  mkBucket (tokens rl - n) (lastRefill rl) (maxTokens rl) (refillRate rl).

(** [waitForToken]: [now] is the clock at entry, [later] the clock read by
    the second [refill], after the sleep of [waitTime] milliseconds; it is
    read only when the bucket holds less than one token. *)
Definition waitForToken (rl : RateLimiter) (now later : Z) : RateLimiter :=
  let rl1 := refill rl now in
  let rl2 := if Qltb (tokens rl1) 1 then refill rl1 later else rl1 in
  takeTokens rl2 1.

(** [tryConsume(tokens)] *)
Definition tryConsume (rl : RateLimiter) (n : Q) (now : Z) : RateLimiter * bool :=
  let rl1 := refill rl now in
  if Qleb n (tokens rl1) then (takeTokens rl1 n, true) else (rl1, false).

(** [consume(tokens)]: [tryConsume] every [refillInterval] until it
    succeeds; [clock] lists the readings of the successive attempts.  The
    loop of the source does not end when [tokens] exceeds [maxTokens]; the
    result is the state reached when the readings end, and whether the
    tokens were taken. *)
Fixpoint consume (rl : RateLimiter) (n : Q) (clock : list Z) : RateLimiter * bool :=
  match clock with
  | [] => (rl, false)
  | now :: later =>
      match tryConsume rl n now with
      | (rl', true) => (rl', true)
      | (rl', false) => consume rl' n later
      end
  end.

(** [reset] *)
Definition reset (rl : RateLimiter) (now : Z) : RateLimiter :=
  mkBucket (maxTokens rl) now (maxTokens rl) (refillRate rl).

(** A call of the public interface, with the clock readings it observes. *)
Inductive Call :=
| WaitForToken (now later : Z)
| TryConsume (n : Q) (now : Z)
| Consume (n : Q) (clock : list Z)
| Reset (now : Z).

Definition call (rl : RateLimiter) (c : Call) : RateLimiter :=
  match c with
  | WaitForToken now later => waitForToken rl now later
  | TryConsume n now => fst (tryConsume rl n now)
  | Consume n clock => fst (consume rl n clock)
  | Reset now => reset rl now
  end.

(** The states after each call of a sequence, in order. *)
Fixpoint run (rl : RateLimiter) (calls : list Call) : list RateLimiter :=
  match calls with
  | [] => []
  | c :: rest => let rl' := call rl c in rl' :: run rl' rest
  end.


Fixpoint nondecreasing (prev : Z) (clock : list Z) : Prop :=
  match clock with
  | [] => True
  | now :: later => prev <= now /\ nondecreasing now later
  end.


(** *** Invariants and sample data used by the proofs *)

(** A bucket with a sound configuration whose count is within bounds and
    whose [lastRefill] is not ahead of the clock reading [prev]. *)
Record Inv (rl : RateLimiter) (prev : Z) : Prop := mkInv {
  inv_max : (1 <= maxTokens rl)%Q;
  inv_rate : (0 < refillRate rl)%Q;
  inv_low : (0 <= tokens rl)%Q;
  inv_high : (tokens rl <= maxTokens rl)%Q;
  inv_clock : lastRefill rl <= prev
}.

(** A bucket of two tokens refilled at one token per second: two immediate
    calls, a third that sleeps for a second, then [tryConsume], [consume]
    and [reset]. *)
Definition sampleCalls : list Call :=
  [WaitForToken 0 0; WaitForToken 0 0; WaitForToken 0 1000;
   TryConsume 1 1000; Consume 1 [1000; 2000]; Reset 2000].

(** *** The rest of the interface *)

(** [getTimeToNextToken] at clock reading [now] *)
Definition getTimeToNextToken (rl : RateLimiter) (now : Z) : Z :=
  if Qltb 0 (tokens rl) then 0
  else
    let timeSinceLastRefill := now - lastRefill rl in
    let timeToNextToken := (1000 / refillRate rl - inject_Z timeSinceLastRefill)%Q in
    Z.max 0 (Qceiling timeToNextToken).

(** [getRemainingTokens]: [refill] has no [await] in its body, it has run
    when the count is read. *)
Definition getRemainingTokens (rl : RateLimiter) (now : Z) : RateLimiter * Q :=
  let rl1 := refill rl now in (rl1, tokens rl1).







End TokenBucket.

(** ** Retry with exponential backoff ([SolanaService.retryWithBackoff]) *)

Module Retry.

Definition MAX_RETRIES : nat := 3.
Definition INITIAL_BACKOFF : Z := 1000.
Definition REQUEST_INTERVAL : Z := 70.

(** [haystack.includes(needle)] *)
Fixpoint includes (needle haystack : string) : bool :=
  String.prefix needle haystack ||
  match haystack with
  | EmptyString => false
  | String _ rest => includes needle rest
  end.

(** What an operation can throw: an [Error] object with its message, or any
    other value. *)
Inductive Thrown :=
| ErrorObject (message : string)
| OtherValue (description : string).

Inductive Outcome (T : Type) :=
| Resolved (value : T)
| Rejected (error : Thrown).
Arguments Resolved {T} value.
Arguments Rejected {T} error.

(** The part of the service and of its environment that [retryWithBackoff]
    touches.  [now] is the clock, advanced by every sleep; [calls] counts the
    invocations of the operation and [backoffs] logs the delays slept in the
    [catch] branch (both are observations, not fields of the service). *)
Record World := mkWorld {
  now : Z;
  lastRequestTime : Z;
  calls : nat;
  backoffs : list Z
}.

Definition sleep (w : World) (ms : Z) : World :=
  mkWorld (now w + ms) (lastRequestTime w) (calls w) (backoffs w).

(** [throttleRequest] *)
Definition throttleRequest (w : World) : World :=
  let timeSinceLastRequest := now w - lastRequestTime w in
  let w1 := if timeSinceLastRequest <? REQUEST_INTERVAL
            then sleep w (REQUEST_INTERVAL - timeSinceLastRequest)
            else w in
  mkWorld (now w1) (now w1) (calls w1) (backoffs w1).

(** The [try] block: throttle, then run the operation.  The outcome of the
    operation is given per invocation. *)
Definition attempt {T} (operation : nat -> Outcome T) (w : World)
  : Outcome T * World :=
  let w1 := throttleRequest w in
  (operation (calls w1),
   mkWorld (now w1) (lastRequestTime w1) (S (calls w1)) (backoffs w1)).

Definition isRateLimit (message : string) : bool :=
  includes "429" message || includes "Too Many Requests" message.

Definition backoffDelay (retryCount : nat) : Z :=
  INITIAL_BACKOFF * 2 ^ Z.of_nat retryCount.

Definition logBackoff (w : World) (delay : Z) : World :=
  mkWorld (now w + delay) (lastRequestTime w) (calls w) (backoffs w ++ [delay]).

Equations? retryWithBackoff {T} (operation : nat -> Outcome T) (w : World)
  (retryCount : nat) : Outcome T * World by wf (MAX_RETRIES - retryCount)%nat lt :=
retryWithBackoff operation w retryCount with attempt operation w := {
  | (Resolved value, w1) := (Resolved value, w1);
  | (Rejected (OtherValue v), w1) := (Rejected (OtherValue v), w1);
  | (Rejected (ErrorObject message), w1)
      with isRateLimit message, lt_dec retryCount MAX_RETRIES := {
      | true, left _ :=
          retryWithBackoff operation (logBackoff w1 (backoffDelay retryCount))
                           (retryCount + 1);
      | _, _ := (Rejected (ErrorObject message), w1) } }.
Proof. lia. Qed.

(** An outcome that signals a rate limit to [retryWithBackoff]. *)
Definition rateLimited {T} (o : Outcome T) : bool :=
  match o with
  | Rejected (ErrorObject message) => isRateLimit message
  | _ => false
  end.

(** *** Invariants and sample data used by the proofs *)

Definition freshWorld : World := mkWorld 0 0 0 [].

Definition tooManyRequests : Outcome nat :=
  Rejected (ErrorObject "429 Too Many Requests").


End Retry.

(** ** Polling for transactions ([SolanaService.processNewTransactions]) *)

Module Poller.
Import Retry.

(** The part of a [TokenBalance] that the service reads;
    [uiTokenAmount.uiAmount] may be [null]. *)
Record TokenBalance := mkBalance {
  accountIndex : nat;
  tb_mint : string;
  uiAmount : option Q
}.

(** [tx.meta]: each of the two lists may be absent. *)
Record Meta := mkMeta {
  preTokenBalances : option (list TokenBalance);
  postTokenBalances : option (list TokenBalance)
}.

(** The part of a [ParsedTransactionWithMeta] that the service reads:
    [accountKeys] holds the printed public keys of
    [tx.transaction.message.accountKeys], [instructionData] the answer of
    [extractInstructionData]. *)
Record ParsedTransaction := mkParsed {
  blockTime : option Z;
  accountKeys : list string;
  meta : option Meta;
  instructionData : string
}.

Record TokenTransfer := mkTransfer {
  tt_mint : string;
  fromUserAccount : string;
  toUserAccount : string;
  tt_amount : string;
  tt_timestamp : option Z;
  tt_signature : string
}.

(** An entry of [TransactionData.tokenTransfers]. *)
Record Swap := mkSwap {
  sw_mint : string;
  sw_amount : string;
  sw_price : Q;
  sw_decimals : Z;
  sw_fromUserAccount : string;
  sw_toUserAccount : string
}.

(** [TransactionData], without the fields copied from [tx.meta] ([err],
    [fee], the lamport balances and the inner instructions) and without the
    constant [type: 'token_swap']. *)
Record TransactionData := mkData {
  td_signature : string;
  td_timestamp : Z;
  td_blockTime : Z;
  programId : string;
  td_accountKeys : list string;
  tokenTransfers : list Swap;
  td_instructionData : string
}.

(** [preBalances.get(index)] on the [Map] built from the list of pairs
    [[balance.accountIndex, balance]]: the last balance of an index wins. *)
Definition mapGet (balances : list TokenBalance) (index : nat) : option TokenBalance :=
  List.find (fun balance => Nat.eqb (accountIndex balance) index) (rev balances).

(** [tx.blockTime ? tx.blockTime * 1000 : undefined] *)
Definition timestampOf (tx : ParsedTransaction) : option Z :=
  match blockTime tx with
  | Some seconds => if (seconds =? 0)%Z then None else Some (seconds * 1000)%Z
  | None => None
  end.

Section Extract.

(** [amountChange.toString()] *)
Variable numberToString : Q -> string.

(** [(postBalance.uiTokenAmount.uiAmount || 0) - (preBalance.uiTokenAmount.uiAmount || 0)] *)
Definition amountChange (postBalance preBalance : TokenBalance) : Q :=
  default 0%Q (uiAmount postBalance) - default 0%Q (uiAmount preBalance).

(** The [forEach] over [postTokenBalances].  Reading the key of an account
    index that [accountKeys] does not have throws; the [catch] of
    [extractTokenTransfers] then returns the transfers pushed so far. *)
Fixpoint forEachPostBalance (tx : ParsedTransaction) (signature : string)
  (preBalances : list TokenBalance) (postBalances : list TokenBalance)
  (transfers : list TokenTransfer) : list TokenTransfer :=
  match postBalances with
  | [] => transfers
  | postBalance :: rest =>
      match mapGet preBalances (accountIndex postBalance) with
      | None => forEachPostBalance tx signature preBalances rest transfers
      | Some preBalance =>
          if String.eqb (tb_mint postBalance) ""
          then forEachPostBalance tx signature preBalances rest transfers
          else if Qeq_bool (amountChange postBalance preBalance) 0
          then forEachPostBalance tx signature preBalances rest transfers
          else
            match nth_error (accountKeys tx) (accountIndex postBalance) with
            | None => transfers
            | Some key =>
                forEachPostBalance tx signature preBalances rest
                  (transfers ++
                   [mkTransfer (tb_mint postBalance) key key
                               (numberToString (amountChange postBalance preBalance))
                               (timestampOf tx) signature])
            end
      end
  end.

(** [extractTokenTransfers] *)
Definition extractTokenTransfers (tx : ParsedTransaction) (signature : string)
  : list TokenTransfer :=
  match meta tx with
  | Some m =>
      match postTokenBalances m, preTokenBalances m with
      | Some postBalances, Some preBalances =>
          forEachPostBalance tx signature preBalances postBalances []
      | _, _ => []
      end
  | None => []
  end.

(** [processParsedTransaction]: [null] without a block time, without a first
    account key (reading it throws) and without a token transfer. *)
Definition processParsedTransaction (tx : ParsedTransaction) (signature : string)
  : option TransactionData :=
  match blockTime tx with
  | None => None
  | Some seconds =>
      if (seconds =? 0)%Z then None
      else
        match accountKeys tx with
        | [] => None
        | first :: _ =>
            match extractTokenTransfers tx signature with
            | [] => None
            | transfers =>
                Some (mkData signature (seconds * 1000) seconds first (accountKeys tx)
                        (map (fun transfer =>
                                mkSwap (tt_mint transfer) (tt_amount transfer) 0 0
                                       (fromUserAccount transfer)
                                       (toUserAccount transfer))
                             transfers)
                        (instructionData tx))
            end
        end
  end.

(** The state of the service that [processNewTransactions] reads and
    writes. *)
Record Service := mkPoller {
  lastProcessedSlot : Z;
  isProcessing : bool;
  currentRaydiumIndex : nat
}.

(** [raydiumPrograms.length] *)
Definition PROGRAMS : nat := 3.

Definition create : Service := mkPoller 0 false 0.

(** What one call meets outside the service: the outcomes of
    [retryWithBackoff] around [getSlot], around [getSignaturesForAddress] for
    the program of the given index, and around [getParsedTransaction] for a
    signature, and the outcome of the callback on a batch. *)
Record Cycle := mkCycle {
  getSlot : Outcome Z;
  getSignaturesForAddress : nat -> Outcome (list string);
  getParsedTransaction : string -> Outcome (option ParsedTransaction);
  callback : list TransactionData -> Outcome unit
}.

(** The loop over the signatures: each iteration has its own [try]. *)
Definition fetchTransactions (c : Cycle) (signatures : list string)
  : list TransactionData :=
  fold_left
    (fun transactions signature =>
       match getParsedTransaction c signature with
       | Resolved (Some tx) =>
           match processParsedTransaction tx signature with
           | Some processedTx => transactions ++ [processedTx]
           | None => transactions
           end
       | _ => transactions
       end)
    signatures [].

Definition nextIndex (p : Service) : nat := (currentRaydiumIndex p + 1) mod PROGRAMS.

(** [processNewTransactions]: the new state, and the batch the callback was
    called with, if it was called.  The [finally] clears [isProcessing] on
    every path that set it.  The sleeps between the queries only delay the
    call and are left out. *)
Definition processNewTransactions (p : Service) (c : Cycle)
  : Service * option (list TransactionData) :=
  if isProcessing p then (p, None)
  else
    match getSlot c with
    | Rejected _ => (mkPoller (lastProcessedSlot p) false (currentRaydiumIndex p), None)
    | Resolved currentSlot =>
        let lastProcessedSlot1 :=
          if (lastProcessedSlot p =? 0)%Z then (currentSlot - 1)%Z
          else lastProcessedSlot p in
        match getSignaturesForAddress c (currentRaydiumIndex p) with
        | Rejected _ => (mkPoller lastProcessedSlot1 false (currentRaydiumIndex p), None)
        | Resolved [] => (mkPoller lastProcessedSlot1 false (nextIndex p), None)
        | Resolved signatures =>
            match fetchTransactions c signatures with
            | [] => (mkPoller lastProcessedSlot1 false (nextIndex p), None)
            | transactions =>
                match callback c transactions with
                | Resolved _ =>
                    (mkPoller currentSlot false (nextIndex p), Some transactions)
                | Rejected _ =>
                    (mkPoller lastProcessedSlot1 false (currentRaydiumIndex p),
                     Some transactions)
                end
            end
        end
    end.

(** A call that runs to its end: both queries answered and the callback,
    if there was a batch for it, returned. *)
Definition completes (c : Cycle) (index : nat) : bool :=
  match getSlot c, getSignaturesForAddress c index with
  | Resolved _, Resolved signatures =>
      match fetchTransactions c signatures with
      | [] => true
      | transactions =>
          match callback c transactions with Resolved _ => true | Rejected _ => false end
      end
  | _, _ => false
  end.

(** Calls made one after the other. *)
Definition run (p : Service) (cycles : list Cycle) : Service :=
  fold_left (fun p c => fst (processNewTransactions p c)) cycles p.

(** The number of calls of a sequence that run to their end. *)
Fixpoint completed (p : Service) (cycles : list Cycle) : nat :=
  match cycles with
  | [] => 0
  | c :: rest =>
      ((if completes c (currentRaydiumIndex p) then 1 else 0)
       + completed (fst (processNewTransactions p c)) rest)%nat
  end.

(** A transfer that [extractTokenTransfers] may push for a transaction. *)
Definition Extracted (tx : ParsedTransaction) (signature : string)
  (preBalances postBalances : list TokenBalance) (transfer : TokenTransfer) : Prop :=
  exists postBalance preBalance,
    In postBalance postBalances /\ In preBalance preBalances
    /\ accountIndex preBalance = accountIndex postBalance
    /\ tb_mint postBalance <> ""%string
    /\ ~ (amountChange postBalance preBalance == 0)%Q
    /\ tt_mint transfer = tb_mint postBalance
    /\ tt_amount transfer = numberToString (amountChange postBalance preBalance)
    /\ nth_error (accountKeys tx) (accountIndex postBalance)
       = Some (fromUserAccount transfer)
    /\ toUserAccount transfer = fromUserAccount transfer
    /\ tt_signature transfer = signature.

(** What [processParsedTransaction] answers when it answers. *)
Definition Reported (signature : string) (data : TransactionData) : Prop :=
  td_signature data = signature
  /\ td_blockTime data <> 0
  /\ td_timestamp data = td_blockTime data * 1000
  /\ tokenTransfers data <> []
  /\ Forall (fun swap => sw_price swap = 0%Q /\ sw_decimals swap = 0
                         /\ sw_toUserAccount swap = sw_fromUserAccount swap)
            (tokenTransfers data).

End Extract.

(** *** Sample data *)

(** A swap seen from two token accounts: account 1 gains 5 tokens, account
    2 is unchanged; account 3 is new and has no balance before. *)
Definition sampleTransaction : ParsedTransaction :=
  mkParsed (Some 1700000000%Z) ["program"; "alice"; "bob"; "carol"]%string
           (Some (mkMeta (Some [mkBalance 1 "MINT" (Some 10%Q);
                                mkBalance 2 "MINT" (Some 7%Q)])
                         (Some [mkBalance 1 "MINT" (Some 15%Q);
                                mkBalance 2 "MINT" (Some 7%Q);
                                mkBalance 3 "MINT" (Some 4%Q)])))
           "data".

(** A transaction that only opens a token account. *)
Definition openingTransaction : ParsedTransaction :=
  mkParsed (Some 1700000000%Z) ["program"; "alice"]%string
           (Some (mkMeta (Some []) (Some [mkBalance 1 "MINT" (Some 4%Q)])))
           "data".

Definition sampleCycle : Cycle :=
  mkCycle (Resolved 100%Z)
          (fun index => if Nat.eqb index 0 then Resolved ["sig_1"; "sig_2"]%string
                        else Resolved [])
          (fun signature =>
             if String.eqb signature "sig_1" then Resolved (Some sampleTransaction)
             else Rejected (ErrorObject "429 Too Many Requests"))
          (fun _ => Resolved tt).

(** A call whose first query fails. *)
Definition failingCycle : Cycle :=
  mkCycle (Rejected (ErrorObject "fetch failed")) (fun _ => Resolved [])
          (fun _ => Resolved None) (fun _ => Resolved tt).

End Poller.

(** ** Risk evaluation ([RiskManagementService]) *)

Module Risk.

Local Open Scope Q_scope.

Record RiskProfile := mkProfile {
  maxPositionSize : Q;
  maxDailyLoss : Q;
  maxDrawdown : Q;
  maxOpenPositions : Z;
  stopLossLevel : Q;
  takeProfitLevel : Q;
  riskPerTrade : Q;
  leverageAllowed : bool;
  maxLeverage : Q
}.

Record TokenMetrics := mkTokenMetrics {
  tm_mint : string;
  volume24h : Q;
  priceChange24h : Q;
  liquidity : Q;
  holders : Z;
  transactions24h : Z;
  tm_price : Q
}.

Record RiskMetrics := mkRiskMetrics {
  volatility : Q;
  sharpeRatio : Q;
  rm_maxDrawdown : Q;
  successRate : Q;
  failureRate : Q;
  rm_riskScore : Q
}.

Inductive Recommendation := increase | maintain | reduce | close.
Inductive WarningLevel := low | medium | high.

Record PositionRisk := mkPositionRisk {
  pr_mint : string;
  pr_riskScore : Q;
  maxLoss : Q;
  exposure : Q;
  liquidationPrice : Q;
  recommendation : Recommendation;
  warningLevel : WarningLevel
}.

Record TradeDecision := mkDecision {
  approved : bool;
  maxAmount : Q;
  riskScore : Q;
  warnings : list string;
  timestamp : Z;
  suggestedStopLoss : option Q;
  suggestedTakeProfit : option Q
}.

Inductive TradeType := buy | sell.

Record Trade := mkTrade {
  t_amount : Q;
  t_price : Q;
  t_timestamp : Z;
  t_type : TradeType
}.

Record DailyStats := mkDailyStats {
  totalLoss : Q;
  totalProfit : Q;
  tradeCount : Z;
  lastReset : Z;
  trades : gmap string (list Trade)
}.

(** The mutable fields of the service and its [maxDailyTrades] setting. *)
Record Service := mkService {
  riskProfiles : gmap string RiskProfile;
  positionRisks : gmap string PositionRisk;
  dailyStats : DailyStats;
  maxDailyTrades : Z
}.

(** The two queries the service sends to [MarketAnalysisService].  Both
    catch their own errors and answer [null] instead ([None]). *)
Record MarketAnalysis := mkMarket {
  analyzeToken : string -> option TokenMetrics;
  calculateRiskMetrics : string -> option RiskMetrics
}.

Definition DEFAULT_RISK_PROFILE : RiskProfile :=
  mkProfile 5 3 15 5%Z 2 5 1 false 1.

Definition emptyDailyStats (now : Z) : DailyStats :=
  mkDailyStats 0 0 0%Z now ∅.

(** The constructor; [maxDailyTrades] defaults to 50 in the source. *)
Definition create (maxDailyTrades now : Z) : Service :=
  mkService ∅ ∅ (emptyDailyStats now) maxDailyTrades.

Definition resetDailyStats (st : Service) (now : Z) : Service :=
  mkService (riskProfiles st) (positionRisks st) (emptyDailyStats now)
            (maxDailyTrades st).

(** [{...DEFAULT_RISK_PROFILE, ...profile}]: every field of [RiskProfile] is
    required, so the spread is [profile] itself. *)
Definition setRiskProfile (st : Service) (name : string) (profile : RiskProfile)
  : Service :=
  mkService (<[name := profile]> (riskProfiles st)) (positionRisks st)
            (dailyStats st) (maxDailyTrades st).

Definition getRiskProfile (st : Service) (name : string) : RiskProfile :=
  default DEFAULT_RISK_PROFILE (riskProfiles st !! name).

(** [calculateRiskScore]: the weighted sum is accumulated from 0 in the
    order of the keys of [weights]. *)
Definition calculateRiskScore (metrics : TokenMetrics) (amount price portfolioValue : Q)
  : Q :=
  let positionSize := (amount * price / portfolioValue) * 100 in
  let liquidityRatio := amount * price / liquidity metrics in
  let s_positionSize := Qmin (positionSize / 10) 1 in
  let s_liquidity := Qmin (liquidityRatio * 2) 1 in
  let s_volume := Qmax 0 (1 - volume24h metrics / 1000000) in
  let s_priceChange := Qmin (Qabs (priceChange24h metrics) / 50) 1 in
  0 + s_positionSize * 0.3 + s_liquidity * 0.3 + s_volume * 0.2
    + s_priceChange * 0.2.

(** [riskMetrics?.volatility || 1] *)
Definition calculateVolatility (market : MarketAnalysis) (mint : string) : Q :=
  match calculateRiskMetrics market mint with
  | Some riskMetrics =>
      if Qeq_bool (volatility riskMetrics) 0 then 1 else volatility riskMetrics
  | None => 1
  end.

Definition calculateStopLoss (price level : Q) : Q := price * (1 - level / 100).
Definition calculateTakeProfit (price level : Q) : Q := price * (1 + level / 100).

Definition countOpenPositions (st : Service) : Z :=
  Z.of_nat (size (positionRisks st)).

Definition rejection (warning : string) (now : Z) : TradeDecision :=
  mkDecision false 0 1 [warning] now None None.

Section Evaluate.

(** How a number is printed inside a template string. *)
Variable numberToString : Q -> string.

(** [approved = false; warnings.push(warning)] on the pair of both. *)
Definition reject (verdict : bool * list string) (warning : string)
  : bool * list string :=
  (false, snd verdict ++ [warning]).

(** [evaluateTradeRisk].  The service is only read.  Nothing in the [try]
    block throws (the market queries answer [null] on failure), so the
    [catch] branch of the source is not reached. *)
Definition evaluateTradeRisk (st : Service) (market : MarketAnalysis)
  (mint : string) (amount price portfolioValue : Q) (riskProfile : string)
  (now : Z) : TradeDecision :=
  let profile := default DEFAULT_RISK_PROFILE (riskProfiles st !! riskProfile) in
  let maxAmount := (portfolioValue * maxPositionSize profile) / 100 in
  if (tradeCount (dailyStats st) >=? maxDailyTrades st)%Z
  then rejection "Daily trade limit reached" now
  else if Qltb ((portfolioValue * maxDailyLoss profile) / 100)
               (totalLoss (dailyStats st))
  then rejection "Daily loss limit reached" now
  else match analyzeToken market mint with
  | None => rejection "Unable to analyze token metrics" now
  | Some tokenMetrics =>
      let riskScore := calculateRiskScore tokenMetrics amount price portfolioValue in
      let v0 := (true, []) in
      let v1 := if Qltb maxAmount amount
                then reject v0 (String.append "Amount exceeds maximum position size of "
                                              (numberToString maxAmount))
                else v0 in
      let v2 := if Qltb 0.8 riskScore then reject v1 "Risk score too high" else v1 in
      let v3 := if Qltb (liquidity tokenMetrics) (amount * price * 2)
                then reject v2 "Insufficient liquidity" else v2 in
      let v4 := if (countOpenPositions st >=? maxOpenPositions profile)%Z
                then reject v3 "Maximum number of open positions reached" else v3 in
      let volatile := Qltb 0.5 (calculateVolatility market mint) in
      mkDecision (fst v4)
                 (if volatile then maxAmount * 0.5 else maxAmount)
                 riskScore
                 (if volatile then snd v4 ++ ["High volatility detected"%string]
                  else snd v4)
                 now
                 (Some (calculateStopLoss price (stopLossLevel profile)))
                 (Some (calculateTakeProfit price (takeProfitLevel profile)))
  end.

End Evaluate.

(** [calculatePositionRisk] *)
Definition calculatePositionRisk (market : MarketAnalysis) (mint : string)
  (amount price : Q) : Q :=
  match analyzeToken market mint with
  | None => 1
  | Some _ =>
      match calculateRiskMetrics market mint with
      | None => 1
      | Some riskMetrics =>
          volatility riskMetrics * 0.3 + rm_maxDrawdown riskMetrics * 0.3
          + (1 - successRate riskMetrics) * 0.4
      end
  end.

Definition tradesOf (stats : DailyStats) (mint : string) : list Trade :=
  default [] (trades stats !! mint).

Definition isSell (t : TradeType) : bool :=
  match t with sell => true | buy => false end.
Definition isBuy (t : TradeType) : bool :=
  match t with buy => true | sell => false end.

(** [updateDailyStats]: nothing happens while the ledger of the mint holds
    fewer than two trades. *)
Definition updateDailyStats (stats : DailyStats) (mint : string) : DailyStats :=
  let trades := tradesOf stats mint in
  if (length trades <? 2)%nat then stats
  else
    match trades !! (length trades - 1)%nat, trades !! (length trades - 2)%nat with
    | Some lastTrade, Some previousTrade =>
        let stats1 :=
          if isSell (t_type lastTrade) && isBuy (t_type previousTrade)
          then
            let pnl := (t_price lastTrade - t_price previousTrade) * t_amount lastTrade in
            if Qltb 0 pnl
            then mkDailyStats (totalLoss stats) (totalProfit stats + pnl)
                              (tradeCount stats) (lastReset stats) (Risk.trades stats)
            else mkDailyStats (totalLoss stats + Qabs pnl) (totalProfit stats)
                              (tradeCount stats) (lastReset stats) (Risk.trades stats)
          else stats in
        mkDailyStats (totalLoss stats1) (totalProfit stats1)
                     (tradeCount stats1 + 1)%Z (lastReset stats1) (Risk.trades stats1)
    | _, _ => stats
    end.

(** [updatePosition] *)
Definition updatePosition (st : Service) (market : MarketAnalysis) (mint : string)
  (amount price : Q) (type : TradeType) (now : Z) : Service :=
  let stats := dailyStats st in
  let trades' := tradesOf stats mint ++ [mkTrade amount price now type] in
  let stats1 := mkDailyStats (totalLoss stats) (totalProfit stats) (tradeCount stats)
                             (lastReset stats) (<[mint := trades']> (trades stats)) in
  let positions :=
    match type with
    | buy =>
        <[mint := mkPositionRisk mint (calculatePositionRisk market mint amount price)
                    (amount * price * 0.1) (amount * price) (price * 0.9)
                    maintain low]> (positionRisks st)
    | sell => delete mint (positionRisks st)
    end in
  mkService (riskProfiles st) positions (updateDailyStats stats1 mint)
            (maxDailyTrades st).

(** *** Invariants and sample data used by the proofs *)

(** The three checks that short-circuit before the position size is
    looked at. *)
Definition dailyTradeLimitReached (st : Service) : bool :=
  tradeCount (dailyStats st) >=? maxDailyTrades st.
Definition dailyLossLimitReached (st : Service) (portfolioValue : Q)
  (riskProfile : string) : bool :=
  Qltb ((portfolioValue * maxDailyLoss (getRiskProfile st riskProfile)) / 100)
       (totalLoss (dailyStats st)).

(** Printing of the whole part of a number, enough for the examples. *)
Definition showWhole (x : Q) : string :=
  if (Qfloor x =? 50)%Z then "50" else "?".

Definition liquidToken : TokenMetrics :=
  mkTokenMetrics "MINT" 2000000 1 100000 100%Z 1000%Z 1.

Definition calmMarket : MarketAnalysis :=
  mkMarket (fun _ => Some liquidToken)
           (fun _ => Some (mkRiskMetrics 0.1 1 0.1 0.5 0.5 0.2)).

Definition silentMarket : MarketAnalysis :=
  mkMarket (fun _ => None) (fun _ => None).

(** *** Position monitoring and reports *)

Definition MAX_EXPOSURE_TIME : Z := 24 * 60 * 60 * 1000.

(** [this.dailyStats.trades.get(mint)?.slice(-1)[0]?.timestamp || 0] *)
Definition lastTradeTime (stats : DailyStats) (mint : string) : Z :=
  default 0%Z (t_timestamp <$> list.last (tradesOf stats mint)).

(** The body of the loop of [checkAllPositions] for one entry of
    [positionRisks].  [getCurrentPrice] is the query of the same name of
    [MarketAnalysisService], which answers a price or [null]. *)
Definition checkPosition (st : Service) (market : MarketAnalysis)
  (getCurrentPrice : string -> option Q) (now : Z) (mint : string)
  (position : PositionRisk) : PositionRisk :=
  match getCurrentPrice mint with
  | None => position
  | Some currentPrice =>
      if Qeq_bool currentPrice 0 then position
      else
        let unrealizedPnL :=
          (currentPrice - liquidationPrice position)
          * (exposure position / liquidationPrice position) in
        let riskScore :=
          calculatePositionRisk market mint (exposure position / currentPrice)
                                currentPrice in
        let timeSinceEntry := (now - lastTradeTime (dailyStats st) mint)%Z in
        let advice :=
          if Qltb unrealizedPnL (- maxLoss position) then (close, high)
          else if Qltb 0.8 riskScore then (reduce, high)
          else if (timeSinceEntry >? MAX_EXPOSURE_TIME)%Z then (reduce, medium)
          else (maintain, low) in
        mkPositionRisk (pr_mint position) riskScore (maxLoss position)
                       (exposure position) (liquidationPrice position)
                       (fst advice) (snd advice)
  end.

(** [checkAllPositions]: every entry is replaced under its own key, so the
    order of the iteration does not matter. *)
Definition checkAllPositions (st : Service) (market : MarketAnalysis)
  (getCurrentPrice : string -> option Q) (now : Z) : Service :=
  mkService (riskProfiles st)
            (map_imap (fun mint position =>
                         Some (checkPosition st market getCurrentPrice now mint position))
                      (positionRisks st))
            (dailyStats st) (maxDailyTrades st).

(** [getPositionRisk] *)
Definition getPositionRisk (st : Service) (mint : string) : option PositionRisk :=
  positionRisks st !! mint.

(** The [netPnL] field that [getDailyStats] adds to the daily statistics. *)
Definition netPnL (st : Service) : Q :=
  totalProfit (dailyStats st) - totalLoss (dailyStats st).

(** What happens to the service, one event after the other. *)
Inductive Event :=
| UpdatePosition (market : MarketAnalysis) (mint : string) (amount price : Q)
                 (type : TradeType) (now : Z)
| ResetDailyStats (now : Z)
| SetRiskProfile (name : string) (profile : RiskProfile)
| CheckAllPositions (market : MarketAnalysis) (getCurrentPrice : string -> option Q)
                    (now : Z).

Definition handle (st : Service) (e : Event) : Service :=
  match e with
  | UpdatePosition market mint amount price type now =>
      updatePosition st market mint amount price type now
  | ResetDailyStats now => resetDailyStats st now
  | SetRiskProfile name profile => setRiskProfile st name profile
  | CheckAllPositions market getCurrentPrice now =>
      checkAllPositions st market getCurrentPrice now
  end.

Definition run (st : Service) (events : list Event) : Service :=
  fold_left handle events st.

(** The number of trades in the ledgers of the day. *)
Definition recordedTrades (stats : DailyStats) : nat :=
  map_fold (fun _ ledger n => (length ledger + n)%nat) 0%nat (trades stats).

(** The books of the day: totals that are not negative, no empty ledger,
    and a trade count that misses the first trade of every mint. *)
Record Books (stats : DailyStats) : Prop := mkBooks {
  bk_loss : 0 <= totalLoss stats;
  bk_profit : 0 <= totalProfit stats;
  bk_ledgers : forall mint ledger, trades stats !! mint = Some ledger -> ledger <> [];
  bk_count : (tradeCount stats + Z.of_nat (size (trades stats)))%Z
             = Z.of_nat (recordedTrades stats)
}.

End Risk.

(** ** Market analysis: the helpers behind [analyzeToken] and
    [calculateRiskMetrics] ([MarketAnalysisService]) *)

Module Market.

Local Open Scope Q_scope.

Record PricePoint := mkPoint {
  pp_price : Q;
  pp_timestamp : Z
}.

Definition DAY : Z := 24 * 60 * 60 * 1000.

(** [array.slice(-n)]: the last [n] elements, and the whole array for
    [n = 0], since [-0] is [0]. *)
Definition sliceLast {A} (n : nat) (l : list A) : list A :=
  if Nat.eqb n 0 then l else skipn (length l - n) l.

(** [updatePriceHistory]: the history stored for the mint afterwards. *)
Definition updatePriceHistory (maxPriceHistoryLength : nat)
  (history : list PricePoint) (currentPrice : Q) (now : Z) : list PricePoint :=
  let pushed := history ++ [mkPoint currentPrice now] in
  let dayAgo := (now - DAY)%Z in
  sliceLast maxPriceHistoryLength
    (List.filter (fun entry => (pp_timestamp entry >? dayAgo)%Z) pushed).

(** [calculatePriceChange24h] *)
Definition calculatePriceChange24h (priceHistory : list PricePoint) (now : Z) : Q :=
  if (length priceHistory <? 2)%nat then 0
  else
    let dayAgo := (now - DAY)%Z in
    match List.find (fun entry => (pp_timestamp entry >=? dayAgo)%Z) priceHistory,
          list.last priceHistory with
    | Some old, Some current =>
        if Qeq_bool (pp_price old) 0 then 0
        else ((pp_price current - pp_price old) / pp_price old) * 100
    | _, _ => 0
    end.





(** [calculateRiskScore(volatility, maxDrawdown, successRate)] *)
Definition calculateRiskScore (volatility maxDrawdown successRate : Q) : Q :=
  let normalizedVolatility := Qmin (volatility / 2) 1 in
  let normalizedDrawdown := Qmin maxDrawdown 1 in
  let normalizedSuccessRate := 1 - successRate in
  normalizedVolatility * 0.4 + normalizedDrawdown * 0.4 + normalizedSuccessRate * 0.2.

(** A day and a half of prices, the first of them too old to be kept. *)
Definition sampleHistory : list PricePoint :=
  [mkPoint 10 0; mkPoint 12 50000000; mkPoint 9 100000000].

End Market.

(** ** Sentiment of tweets ([TwitterService], in the file of the token
    bucket) *)

Module Sentiment.

Local Open Scope Q_scope.

(** [tweet.public_metrics] *)
Record Metrics := mkMetrics {
  like_count : Q;
  retweet_count : Q;
  quote_count : Q;
  reply_count : Q
}.

(** A tweet: [words] is [text.toLowerCase().split(/\W+/)]. *)
Record Tweet := mkTweet {
  words : list string;
  public_metrics : Metrics
}.

Definition positiveWords : list string :=
  ["bull"; "bullish"; "moon"; "pump"; "buy"; "long";
   "good"; "great"; "amazing"; "profit"; "win"; "winning";
   "gain"; "gains"; "up"; "rising"; "grow"; "growing"]%string.

Definition negativeWords : list string :=
  ["bear"; "bearish"; "dump"; "sell"; "short";
   "bad"; "worst"; "terrible"; "loss"; "lose"; "losing";
   "down"; "falling"; "crash"; "scam"; "fake"]%string.

Definition has (set : list string) (word : string) : bool :=
  existsb (String.eqb word) set.

(** [calculateTweetWeight] *)
Definition calculateTweetWeight (metrics : Metrics) : Q :=
  (like_count metrics * 1 + retweet_count metrics * 2
   + quote_count metrics * 1.5 + reply_count metrics * 0.5) + 1.

(** The score of [analyzeTextSentiment] before it is normalised. *)
Definition wordScore (words : list string) : Z :=
  fold_left (fun score word =>
               let score1 := if has positiveWords word then (score + 1)%Z else score in
               if has negativeWords word then (score1 - 1)%Z else score1)
            words 0%Z.

(** [analyzeTextSentiment]: [score === 0 ? 0 : score / Math.abs(score)] *)
Definition analyzeTextSentiment (words : list string) : Q :=
  let score := wordScore words in
  if (score =? 0)%Z then 0 else inject_Z score / inject_Z (Z.abs score).

(** The two sums of [analyzeSentiment]. *)
Definition totals (tweets : list Tweet) : Q * Q :=
  fold_left (fun sums tweet =>
               let weight := calculateTweetWeight (public_metrics tweet) in
               let textSentiment := analyzeTextSentiment (words tweet) in
               (fst sums + textSentiment * weight, snd sums + weight))
            tweets (0, 0).

(** [analyzeSentiment] *)
Definition analyzeSentiment (tweets : list Tweet) : Q :=
  match tweets with
  | [] => 0
  | _ =>
      let '(totalScore, totalWeight) := totals tweets in
      if Qltb 0 totalWeight then totalScore / totalWeight else 0
  end.

(** Tweets whose interaction counts are not negative. *)
Definition counted (tweet : Tweet) : Prop :=
  0 <= like_count (public_metrics tweet) /\ 0 <= retweet_count (public_metrics tweet)
  /\ 0 <= quote_count (public_metrics tweet) /\ 0 <= reply_count (public_metrics tweet).

Definition sampleTweets : list Tweet :=
  [mkTweet ["sol"; "to"; "the"; "moon"]%string (mkMetrics 10 2 0 1);
   mkTweet ["total"; "scam"; "dump"; "it"]%string (mkMetrics 1 0 0 0);
   mkTweet ["gm"]%string (mkMetrics 0 0 0 0)].

End Sentiment.

(** ** Order management ([OrderManagementService])

    The awaits on [this.rateLimiter.waitForSlot()] delay the caller and
    change only the limiter ([SlidingWindow]); they are left out here.
    Logging is left out as well. *)

Module Orders.

Local Open Scope Q_scope.

Inductive OrderSide := BUY | SELL.
Inductive OrderType := MARKET | LIMIT | STOP_LIMIT.
Inductive OrderStatus := PENDING | FILLED | CANCELLED | FAILED.
Inductive OrderExecutionStrategy := NORMAL | AGGRESSIVE | PASSIVE.

Record OrderFill := mkFill {
  f_price : Q;
  f_amount : Q;
  f_timestamp : Z
}.

Record Order := mkOrder {
  id : string;
  mint : string;
  side : OrderSide;
  type : OrderType;
  amount : Q;
  price : option Q;
  strategy : OrderExecutionStrategy;
  status : OrderStatus;
  createdAt : Z;
  updatedAt : Z;
  fills : list OrderFill;
  remainingAmount : Q;
  averagePrice : Q;
  retryCount : Z;
  warnings : list string;
  stopLoss : option Q;
  takeProfit : option Q
}.

(** The two shapes of [ExecutionResult] that [executeOrder] builds:
    [{success: true, signature, price, amount, timestamp}] and
    [{success: false, error}]. *)
Inductive ExecutionResult :=
| Executed (signature : string) (price amount : Q) (timestamp : Z)
| NotExecuted (error : option string).

Definition success (result : ExecutionResult) : bool :=
  match result with Executed _ _ _ _ => true | NotExecuted _ => false end.

Record OrderBook := mkOrderBook {
  bids : list (Q * Q);
  asks : list (Q * Q);
  ob_mint : string;
  ob_timestamp : Z
}.

Definition MAX_RETRIES : Z := 3.
Definition MAX_CONCURRENT_ORDERS : nat := 10.

(** The order map and the set of pending ids; the set is kept as the list
    of its elements in insertion order, the order in which a JavaScript
    [Set] is iterated. *)
Record Service := mkService {
  orders : gmap string Order;
  pendingOrders : list string
}.

Definition create : Service := mkService ∅ [].

(** [Set.prototype.add] and [Set.prototype.delete] *)
Definition setHas (x : string) (s : list string) : bool :=
  existsb (String.eqb x) s.
Definition setAdd (x : string) (s : list string) : list string :=
  if setHas x s then s else s ++ [x].
Definition setDelete (x : string) (s : list string) : list string :=
  List.filter (fun y => negb (String.eqb x y)) s.

(** What [createOrder] consults outside the service: the risk service and
    the market, the answer of [marketAnalysis.getCurrentPrice] for a mint (a
    price, [null], or an exception), and the printing of numbers in
    messages. *)
Record Environment := mkEnv {
  riskManagement : Risk.Service;
  marketAnalysis : Risk.MarketAnalysis;
  marketPrice : string -> Retry.Outcome (option Q);
  numberToString : Q -> string
}.

(** [getCurrentPrice]: [price || 0], and 0 when the query throws. *)
Definition getCurrentPrice (env : Environment) (mint : string) : Q :=
  match marketPrice env mint with
  | Retry.Resolved price => default 0 price
  | Retry.Rejected _ => 0
  end.

(** [getPortfolioValue] is a stub that answers 1000. *)
Definition getPortfolioValue : Q := 1000.

(** A number that is present and not 0 ([!x] is false). *)
Definition truthy (x : option Q) : bool :=
  match x with Some v => negb (Qeq_bool v 0) | None => false end.

(** [createOrder]: [orderId] is the value of [generateOrderId()], [now] the
    clock.  Every [throw] of the [try] block ends in [return null]. *)
Definition createOrder (st : Service) (env : Environment) (orderId : string)
  (now : Z) (mint : string) (side : OrderSide) (type : OrderType) (amount : Q)
  (price : option Q) (strategy : OrderExecutionStrategy)
  : Service * option string :=
  if (MAX_CONCURRENT_ORDERS <=? length (pendingOrders st))%nat
  then (st, None)
  else
    let riskCheck :=
      Risk.evaluateTradeRisk (numberToString env) (riskManagement env)
        (marketAnalysis env) mint amount
        (if truthy price then default 0 price else getCurrentPrice env mint)
        getPortfolioValue "default" now in
    if negb (Risk.approved riskCheck)
    then (st, None)
    else
      let order :=
        mkOrder orderId mint side type amount price strategy PENDING now now
                [] amount 0 0%Z []
                (Risk.suggestedStopLoss riskCheck)
                (Risk.suggestedTakeProfit riskCheck) in
      (mkService (<[orderId := order]> (orders st))
                 (setAdd orderId (pendingOrders st)),
       Some orderId).

(** [checkExecutionConditions] *)
Definition checkExecutionConditions (order : Order) (currentPrice : Q) : bool :=
  if Qeq_bool currentPrice 0 then false
  else
    match type order with
    | MARKET => true
    | LIMIT =>
        match price order with
        | Some limit =>
            if Qeq_bool limit 0 then false
            else match side order with
                 | BUY => Qleb currentPrice limit
                 | SELL => Qleb limit currentPrice
                 end
        | None => false
        end
    | STOP_LIMIT =>
        if truthy (price order) && truthy (stopLoss order)
        then match side order with
             | SELL => Qleb currentPrice (default 0 (stopLoss order))
             | BUY => Qleb (default 0 (stopLoss order)) currentPrice
             end
        else false
    end.

(** [getOrderBook] is a stub that answers [null]. *)
Definition getOrderBook (mint : string) : option OrderBook := None.

(** [createOrderTransaction] is a stub that throws ["Not implemented"]. *)
Definition createOrderTransaction (order : Order) (currentPrice : Q)
  : Retry.Outcome unit :=
  Retry.Rejected (Retry.ErrorObject "Not implemented").

(** The two calls [executeOrder] makes on the connection:
    [sendTransaction], which answers a signature, and [confirmTransaction],
    which answers [confirmation.value.err]. *)
Record Connection := mkConnection {
  sendTransaction : unit -> Retry.Outcome string;
  confirmTransaction : string -> Retry.Outcome (option string)
}.

(** [error instanceof Error ? error.message : 'Unknown execution error'] *)
Definition caught (error : Retry.Thrown) : ExecutionResult :=
  match error with
  | Retry.ErrorObject message => NotExecuted (Some message)
  | Retry.OtherValue _ => NotExecuted (Some "Unknown execution error"%string)
  end.

(** [executeOrder].  With the two stubs above every attempt ends in
    [{success: false, ...}]: the code after them is never reached. *)
Definition executeOrder (env : Environment) (connection : Connection) (now : Z)
  (order : Order) : ExecutionResult :=
  match getOrderBook (mint order) with
  | None => NotExecuted (Some "Unable to fetch order book"%string)
  | Some _ =>
      let currentPrice := getCurrentPrice env (mint order) in
      if negb (checkExecutionConditions order currentPrice)
      then NotExecuted (Some "Execution conditions not met"%string)
      else
        match createOrderTransaction order currentPrice with
        | Retry.Rejected error => caught error
        | Retry.Resolved transaction =>
            match sendTransaction connection transaction with
            | Retry.Rejected error => caught error
            | Retry.Resolved signature =>
                match confirmTransaction connection signature with
                | Retry.Rejected error => caught error
                | Retry.Resolved (Some err) =>
                    NotExecuted (Some (String.append "Transaction failed: " err))
                | Retry.Resolved None =>
                    Executed signature currentPrice (amount order) now
                end
            end
        end
  end.

(** The sums of [updateOrderStatus], written as the source writes them:
    [fills.reduce((sum, fill) => sum + ..., 0)]. *)
Definition totalAmount (fills : list OrderFill) : Q :=
  fold_left (fun sum fill => sum + f_amount fill) fills 0.
Definition weightedSum (fills : list OrderFill) : Q :=
  fold_left (fun sum fill => sum + f_price fill * f_amount fill) fills 0.

(** [updateOrderStatus(orderId, status, result?)] *)
Definition updateOrderStatus (st : Service) (orderId : string)
  (status : OrderStatus) (result : option ExecutionResult) (now : Z) : Service :=
  match orders st !! orderId with
  | None => st
  | Some order =>
      let order' :=
        match result with
        | Some (Executed _ price amount timestamp) =>
            let fills' := fills order ++ [mkFill price amount timestamp] in
            mkOrder (id order) (mint order) (side order) (type order) (Orders.amount order)
                    (Orders.price order) (strategy order) status (createdAt order) now
                    fills'
                    (Qmax 0 (Orders.amount order - totalAmount fills'))
                    (weightedSum fills' / totalAmount fills')
                    (retryCount order) (warnings order)
                    (stopLoss order) (takeProfit order)
        | _ =>
            mkOrder (id order) (mint order) (side order) (type order) (Orders.amount order)
                    (Orders.price order) (strategy order) status (createdAt order) now
                    (fills order) (remainingAmount order) (averagePrice order)
                    (retryCount order) (warnings order)
                    (stopLoss order) (takeProfit order)
        end in
      mkService (<[orderId := order']> (orders st)) (pendingOrders st)
  end.

(** [order.retryCount++; order.warnings.push(result.error || '...')] *)
Definition noteFailure (order : Order) (error : option string) : Order :=
  mkOrder (id order) (mint order) (side order) (type order) (amount order)
          (price order) (strategy order) (status order) (createdAt order)
          (updatedAt order) (fills order) (remainingAmount order)
          (averagePrice order) (retryCount order + 1)%Z
          (warnings order ++
             [match error with
              | Some e => if String.eqb e "" then "Unknown execution error"%string else e
              | None => "Unknown execution error"%string
              end])
          (stopLoss order) (takeProfit order).

Definition errorOf (result : ExecutionResult) : option string :=
  match result with Executed _ _ _ _ => None | NotExecuted e => e end.

Definition removePending (st : Service) (orderId : string) : Service :=
  mkService (orders st) (setDelete orderId (pendingOrders st)).

(** The body of the loop of [processPendingOrders] for one pending id.
    [execute] stands for [this.executeOrder]. *)
Definition processOrder (execute : Order -> ExecutionResult) (now : Z)
  (st : Service) (orderId : string) : Service :=
  match orders st !! orderId with
  | None => st
  | Some order =>
      let result := execute order in
      if success result
      then updateOrderStatus (removePending st orderId) orderId FILLED (Some result) now
      else if (retryCount order >=? MAX_RETRIES)%Z
      then updateOrderStatus (removePending st orderId) orderId FAILED (Some result) now
      else mkService (<[orderId := noteFailure order (errorOf result)]> (orders st))
                     (pendingOrders st)
  end.

(** [processPendingOrders]: one scan over the pending set.  An iteration
    removes at most its own id from the set, so iterating the elements
    present at the start visits what the live iteration visits. *)
Definition processPendingOrders (execute : Order -> ExecutionResult) (now : Z)
  (st : Service) : Service :=
  fold_left (processOrder execute now) (pendingOrders st) st.

(** [cancelOrder] *)
Definition cancelOrder (st : Service) (orderId : string) (now : Z)
  : Service * bool :=
  match orders st !! orderId with
  | Some order =>
      match status order with
      | PENDING =>
          (updateOrderStatus (removePending st orderId) orderId CANCELLED None now,
           true)
      | _ => (st, false)
      end
  | None => (st, false)
  end.

Definition statusEqb (a b : OrderStatus) : bool :=
  match a, b with
  | PENDING, PENDING | FILLED, FILLED | CANCELLED, CANCELLED | FAILED, FAILED => true
  | _, _ => false
  end.

(** [getOrder] and [getOrders(status?)] *)
Definition getOrder (st : Service) (orderId : string) : option Order :=
  orders st !! orderId.
Definition getOrders (st : Service) (status : option OrderStatus) : list Order :=
  let allOrders := (map_to_list (orders st)).*2 in
  match status with
  | Some wanted => List.filter (fun order => statusEqb (Orders.status order) wanted) allOrders
  | None => allOrders
  end.

(** Arguments of a [createOrder] call. *)
Record OrderRequest := mkRequest {
  r_env : Environment;
  r_orderId : string;
  r_now : Z;
  r_mint : string;
  r_side : OrderSide;
  r_type : OrderType;
  r_amount : Q;
  r_price : option Q;
  r_strategy : OrderExecutionStrategy
}.

(** The operations on the service, each run to completion before the
    next one starts.  [Attempt] is one iteration of the loop of
    [processPendingOrders], on an id it finds in the pending set: scans that
    overlap, or that other calls interrupt while they sleep between two
    iterations, are sequences of such iterations. *)
Inductive Operation :=
| CreateOrder (request : OrderRequest)
| Scan (execute : Order -> ExecutionResult) (now : Z)
| Attempt (execute : Order -> ExecutionResult) (now : Z) (orderId : string)
| CancelOrder (orderId : string) (now : Z).

Definition submit (st : Service) (r : OrderRequest) : Service * option string :=
  createOrder st (r_env r) (r_orderId r) (r_now r) (r_mint r) (r_side r)
              (r_type r) (r_amount r) (r_price r) (r_strategy r).

Definition apply (st : Service) (op : Operation) : Service :=
  match op with
  | CreateOrder r => fst (submit st r)
  | Scan execute now => processPendingOrders execute now st
  | Attempt execute now orderId =>
      if setHas orderId (pendingOrders st)
      then processOrder execute now st orderId
      else st
  | CancelOrder orderId now => fst (cancelOrder st orderId now)
  end.

Definition run (st : Service) (ops : list Operation) : Service :=
  fold_left apply ops st.






(** A successful execution reported to [updateOrderStatus]: the status to
    set, the signature, the fill and the clock. *)
Record Execution := mkExecution {
  x_status : OrderStatus;
  x_signature : string;
  x_fill : OrderFill;
  x_now : Z
}.

Definition recordFill (orderId : string) (st : Service) (x : Execution) : Service :=
  updateOrderStatus st orderId (x_status x)
    (Some (Executed (x_signature x) (f_price (x_fill x)) (f_amount (x_fill x))
                    (f_timestamp (x_fill x))))
    (x_now x).

(** A sequence of fills recorded against the order [orderId]. *)
Definition recordFills (st : Service) (orderId : string) (xs : list Execution)
  : Service :=
  fold_left (recordFill orderId) xs st.



(** The derived quantities of the data model, written as the
    specification writes them. *)
Definition sumQ (l : list Q) : Q := fold_right Qplus 0 l.
Definition filledAmount (fills : list OrderFill) : Q := sumQ (map f_amount fills).
Definition filledValue (fills : list OrderFill) : Q :=
  sumQ (map (fun fill => f_price fill * f_amount fill) fills).

(** *** Invariants and sample data used by the proofs *)

(** Every state the service reaches is well formed: the pending set has no
    duplicate, its ids name stored orders whose status is [PENDING], and
    every order is stored under its own id. *)
Record WF (st : Service) : Prop := mkWF {
  wf_nodup : List.NoDup (pendingOrders st);
  wf_pending : forall k, In k (pendingOrders st) ->
    exists order, orders st !! k = Some order /\ status order = PENDING;
  wf_ids : forall k order, orders st !! k = Some order -> id order = k
}.

(** What one attempt does to the order [k] it is made on. *)
Definition Attempted (execute : Order -> ExecutionResult) (k : string)
  (st st' : Service) : Prop :=
  exists order order',
    orders st !! k = Some order /\ orders st' !! k = Some order'
    /\ status order = PENDING
    /\ ((success (execute order) = true /\ status order' = FILLED
         /\ ~ In k (pendingOrders st'))
        \/ (success (execute order) = false /\ (MAX_RETRIES <= retryCount order)%Z
            /\ status order' = FAILED /\ retryCount order' = retryCount order
            /\ ~ In k (pendingOrders st'))
        \/ (success (execute order) = false /\ (retryCount order < MAX_RETRIES)%Z
            /\ status order' = PENDING
            /\ retryCount order' = (retryCount order + 1)%Z
            /\ In k (pendingOrders st'))).

(** What an operation does to the orders it is not about. *)
Definition Untouched (k : string) (st st' : Service) : Prop :=
  orders st' !! k = orders st !! k
  /\ (In k (pendingOrders st') <-> In k (pendingOrders st)).


(** The derived fields as [updateOrderStatus] leaves them. *)
Definition Accounted (order : Order) : Prop :=
  averagePrice order = (weightedSum (fills order) / totalAmount (fills order))%Q
  /\ remainingAmount order
     = Qmax 0 (amount order - totalAmount (fills order)).

(** The derived fields of a stored order: as created while it has no fill,
    as [updateOrderStatus] leaves them once it has one. *)
Definition Booked (order : Order) : Prop :=
  (fills order = [] /\ averagePrice order = 0 /\ remainingAmount order = amount order)
  \/ (fills order <> [] /\ Accounted order).

Definition AllBooked (st : Service) : Prop :=
  forall k order, orders st !! k = Some order -> Booked order.

Definition sampleEnv : Environment :=
  mkEnv (Risk.create 50 0) Risk.calmMarket (fun _ => Retry.Resolved (Some 1%Q))
        Risk.showWhole.

(** A market buy of 10 units at price 1, well inside the risk limits. *)
Definition sampleRequest : OrderRequest :=
  mkRequest sampleEnv "order_1" 0 "MINT" BUY MARKET 10 (Some 1%Q) NORMAL.

Definition deadConnection : Connection :=
  mkConnection (fun _ => Retry.Rejected (Retry.ErrorObject "unreachable"))
               (fun _ => Retry.Resolved None).

(** A scan that runs [executeOrder] as the source has it. *)
Definition failingScan (now : Z) : Operation :=
  Scan (executeOrder sampleEnv deadConnection now) now.


Definition sampleService : Service := fst (submit create sampleRequest).

Definition createdOrder : Order :=
  mkOrder "order_1" "MINT" BUY MARKET 10 (Some 1%Q) NORMAL PENDING 0 0 [] 10 0 0 []
          (Some (Risk.calculateStopLoss 1 2)) (Some (Risk.calculateTakeProfit 1 5)).

Definition failedOrder : Order :=
  mkOrder "order_1" "MINT" BUY MARKET 10 (Some 1%Q) NORMAL FAILED 0 4 [] 10 0 3
          ["Unable to fetch order book"; "Unable to fetch order book";
           "Unable to fetch order book"]%string
          (Some (Risk.calculateStopLoss 1 2)) (Some (Risk.calculateTakeProfit 1 5)).

(** Two fills of 4 units at price 2 and 6 units at price 4 against the
    order of 10 units: the average price is 3.2 and nothing remains. *)
Definition sampleFills : list Execution :=
  [mkExecution PENDING "sig_1" (mkFill 2 4 7) 7;
   mkExecution FILLED "sig_2" (mkFill 4 6 8) 8].

(** *** Further invariants of the order book *)

(** The bookkeeping of one order: [retryCount] counts the failed attempts
    that were followed by a retry, one warning each, and stops at
    [MAX_RETRIES]; an order fails only with its retries used up; it has a
    fill, a single one, exactly when it is [FILLED]. *)
Record Lifecycle (order : Order) : Prop := mkLifecycle {
  lc_retries : (0 <= retryCount order <= MAX_RETRIES)%Z;
  lc_warnings : length (warnings order) = Z.to_nat (retryCount order);
  lc_failed : status order = FAILED -> retryCount order = MAX_RETRIES;
  lc_fills : length (fills order) = if statusEqb (status order) FILLED then 1%nat else 0%nat
}.

(** The whole service: well formed, every stored [PENDING] order is in the
    pending set, the pending set is within [MAX_CONCURRENT_ORDERS], and every
    order keeps its books. *)
Record Sound (st : Service) : Prop := mkSound {
  sd_wf : WF st;
  sd_pending : forall k order,
    orders st !! k = Some order -> status order = PENDING -> In k (pendingOrders st);
  sd_bound : (length (pendingOrders st) <= MAX_CONCURRENT_ORDERS)%nat;
  sd_lifecycle : forall k order, orders st !! k = Some order -> Lifecycle order
}.

(** Operations whose scans run [executeOrder] as the source has it. *)
Definition runsExecuteOrder (op : Operation) : Prop :=
  match op with
  | Scan execute _ | Attempt execute _ _ =>
      exists env connection now, execute = executeOrder env connection now
  | _ => True
  end.

(** The only answer [executeOrder] can give while [getOrderBook] is the stub
    that returns [null]. *)
Definition NO_ORDER_BOOK : string := "Unable to fetch order book".

(** The stored orders of a service none of whose attempts succeeded. *)
Definition Unfilled (st : Service) : Prop :=
  forall k order, orders st !! k = Some order ->
    status order <> FILLED /\ Forall (eq NO_ORDER_BOOK) (warnings order).

(** A scan whose executions all succeed, at price 2. *)
Definition fillingScan (now : Z) : Operation :=
  Scan (fun order => Executed "sig_1" 2 (amount order) now) now.

Definition filledOrder : Order :=
  mkOrder "order_1" "MINT" BUY MARKET 10 (Some 1%Q) NORMAL FILLED 0 1
          [mkFill 2 10 1] (Qmax 0 (10 - (0 + 10))) ((0 + 2 * 10) / (0 + 10)) 0 []
          (Some (Risk.calculateStopLoss 1 2)) (Some (Risk.calculateTakeProfit 1 5)).

End Orders.

(** * Properties *)

(** ** Comparisons of numbers *)

Lemma Qltb_true x y : Qltb x y = true <-> (x < y)%Q.
Proof.
  unfold Qltb. rewrite negb_true_iff. split.
  - intros H. apply Qnot_le_lt. intros Hle. apply Qle_bool_iff in Hle. congruence.
  - intros H. destruct (Qle_bool y x) eqn:E; [|reflexivity].
    apply Qle_bool_iff in E. exfalso. exact (Qlt_not_le _ _ H E).
Qed.

Lemma Qltb_false x y : Qltb x y = false <-> (y <= x)%Q.
Proof.
  unfold Qltb. rewrite negb_false_iff. apply Qle_bool_iff.
Qed.

Lemma Qleb_true x y : Qleb x y = true <-> (x <= y)%Q.
Proof. apply Qle_bool_iff. Qed.

(** ** Sliding window: no window of [interval] milliseconds is over capacity *)

Module SlidingWindowFacts.
Import SlidingWindow.

Lemma prune_recent rl now :
  prune rl now = List.filter (recent (interval rl) now) (timestamps rl).
Proof. reflexivity. Qed.

Lemma filter_recent_later W last now (l : list Z) :
  last <= now ->
  List.filter (recent W now) (List.filter (recent W last) l)
  = List.filter (recent W now) l.
Proof.
  intros Hle. induction l as [|g l IH]; simpl; [reflexivity|].
  destruct (recent W last g) eqn:Hl; simpl; destruct (recent W now g) eqn:Hn.
  - f_equal. exact IH.
  - exact IH.
  - unfold recent in Hl, Hn. apply Z.ltb_lt in Hn. apply Z.ltb_ge in Hl. lia.
  - exact IH.
Qed.

Lemma filter_length_le (p q : Z -> bool) (l : list Z) :
  (forall g, p g = true -> q g = true) ->
  (length (List.filter p l) <= length (List.filter q l))%nat.
Proof.
  intros Hpq. induction l as [|g l IH]; simpl; [lia|].
  destruct (p g) eqn:Hp.
  - rewrite (Hpq g Hp). simpl. lia.
  - destruct (q g); simpl; lia.
Qed.

Lemma inWindow_recent W t now g :
  now <= t -> inWindow W t g = true -> recent W now g = true.
Proof.
  unfold inWindow, recent. intros Hle Hw.
  apply andb_true_iff in Hw as [H1 _].
  apply Z.ltb_lt in H1. apply Z.ltb_lt. lia.
Qed.

Lemma window_Inv_create C W last : Inv last (create C W) [].
Proof. split; [reflexivity|]. intros t. unfold grantsInWindow. simpl. lia. Qed.

Lemma trySlot_config rl now :
  maxRequests (fst (trySlot rl now)) = maxRequests rl
  /\ interval (fst (trySlot rl now)) = interval rl.
Proof. unfold trySlot. destruct (_ >=? _); simpl; auto. Qed.

Lemma trySlot_Inv last rl past now :
  Inv last rl past -> last <= now ->
  let '(rl', granted) := trySlot rl now in
  Inv now rl' (if granted then past ++ [now] else past).
Proof.
  intros [Hts Hwin] Hle.
  assert (Hkept : List.filter (recent (interval rl) now) past = prune rl now).
  { rewrite prune_recent, <- (filter_recent_later _ last now past Hle), Hts.
    apply filter_recent_later, Hle. }
  unfold trySlot.
  destruct (Z.of_nat (length (prune rl now)) >=? maxRequests rl) eqn:Hfull;
    unfold Inv; simpl.
  - split; [|exact Hwin].
    rewrite Hkept, prune_recent. symmetry.
    apply filter_recent_later. lia.
  - split.
    + rewrite !List.filter_app. f_equal.
      rewrite Hkept, prune_recent. symmetry. apply filter_recent_later. lia.
    + intros t. unfold grantsInWindow. rewrite List.filter_app, length_app.
      simpl. destruct (inWindow (interval rl) t now) eqn:Hin; simpl.
      * assert (now <= t).
        { unfold inWindow in Hin. apply andb_true_iff in Hin as [_ H2].
          apply Z.leb_le in H2. exact H2. }
        pose proof (filter_length_le (inWindow (interval rl) t)
                      (recent (interval rl) now) past
                      (fun g => inWindow_recent _ t now g H)) as Hlen.
        rewrite Hkept in Hlen.
        rewrite Z.geb_leb in Hfull. apply Z.leb_gt in Hfull. lia.
      * specialize (Hwin t). unfold grantsInWindow in Hwin. lia.
Qed.

Lemma waitForSlot_Inv clock : forall last rl past granted later rl',
  Inv last rl past -> nondecreasing last clock ->
  waitForSlot clock rl = Some (granted, later, rl') ->
  Inv granted rl' (past ++ [granted]) /\ nondecreasing granted later.
Proof.
  induction clock as [|now clock IH]; intros last rl past granted later rl' HI Hmono Hw;
    simpl in *; [discriminate|].
  destruct Hmono as [Hle Hmono].
  pose proof (trySlot_Inv last rl past now HI Hle) as Hstep.
  destruct (trySlot rl now) as [rl1 [|]].
  - inversion Hw; subst. split; assumption.
  - eapply IH; eauto.
Qed.

Lemma acquireAll_Inv n : forall clock last rl past,
  Inv last rl past -> nondecreasing last clock ->
  forall t,
    (grantsInWindow (interval rl) t (past ++ fst (acquireAll n clock rl))
     <= Z.to_nat (maxRequests rl))%nat.
Proof.
  induction n as [|n IH]; intros clock last rl past HI Hmono t; simpl.
  - rewrite app_nil_r. apply HI.
  - destruct (waitForSlot clock rl) as [[[granted later] rl']|] eqn:Hw.
    + destruct (waitForSlot_Inv _ _ _ _ _ _ _ HI Hmono Hw) as [HI' Hmono'].
      assert (Hcfg : maxRequests rl' = maxRequests rl /\ interval rl' = interval rl).
      { clear -Hw. revert rl Hw. induction clock as [|now clock IHc]; intros rl Hw;
          simpl in Hw; [discriminate|].
        pose proof (trySlot_config rl now) as [Hm Hi].
        destruct (trySlot rl now) as [rl1 [|]]; simpl in *.
        - inversion Hw; subst. auto.
        - destruct (IHc _ Hw) as [Hm' Hi']. split; congruence. }
      destruct Hcfg as [Hm Hi].
      specialize (IH later granted rl' (past ++ [granted]) HI' Hmono' t).
      destruct (acquireAll n later rl') as [grants rl''] eqn:Hrest. simpl in *.
      rewrite <- app_assoc in IH. simpl in IH. rewrite Hm, Hi in IH. exact IH.
    + simpl. rewrite app_nil_r. apply HI.
Qed.

(** C4.  For every sequence of [waitForSlot] calls on a limiter created with
    capacity [C] and window [W], under a clock that never runs backwards, the
    permits granted in any trailing window [(t - W, t]] number at most [C]
    (none at all when [C] is not positive). *)
Theorem sliding_window_never_over_capacity (C W : Z) (n : nat) (start : Z)
  (clock : list Z) (t : Z) :
  nondecreasing start clock ->
  (grantsInWindow W t (fst (acquireAll n clock (create C W))) <= Z.to_nat C)%nat.
Proof.
  intros Hmono.
  exact (acquireAll_Inv n clock start (create C W) [] (window_Inv_create C W start)
           Hmono t).
Qed.

(** The bound does not depend on the calls being made one after the other:
    it holds for every sequence of executions of the body. *)
Lemma bodies_never_over_capacity readings : forall last rl past,
  Inv last rl past -> nondecreasing last readings ->
  forall t,
    (grantsInWindow (interval rl) t (past ++ bodies readings rl)
     <= Z.to_nat (maxRequests rl))%nat.
Proof.
  induction readings as [|now later IH]; intros last rl past HI Hmono t; simpl.
  - rewrite app_nil_r. apply HI.
  - destruct Hmono as [Hle Hmono].
    pose proof (trySlot_Inv last rl past now HI Hle) as Hstep.
    pose proof (trySlot_config rl now) as [Hm Hi].
    destruct (trySlot rl now) as [rl1 [|]]; simpl in Hm, Hi.
    + specialize (IH now rl1 (past ++ [now]) Hstep Hmono t).
      rewrite <- app_assoc in IH. simpl in IH. rewrite Hm, Hi in IH. exact IH.
    + specialize (IH now rl1 past Hstep Hmono t).
      rewrite Hm, Hi in IH. exact IH.
Qed.

(** A suspended caller is served after one sleep: when the limiter holds at
    most [maxRequests] timestamps and the clock has advanced by the
    [waitTime] computed at [now], the oldest timestamp is pruned and the
    next execution of the body takes the slot. *)
Lemma filter_length (p : Z -> bool) (l : list Z) :
  (length (List.filter p l) <= length l)%nat.
Proof.
  induction l as [|x l IH]; simpl; [lia|]. destruct (p x); simpl; lia.
Qed.

Lemma trySlot_length rl now :
  Z.of_nat (length (timestamps rl)) <= maxRequests rl ->
  Z.of_nat (length (timestamps (fst (trySlot rl now)))) <= maxRequests rl.
Proof.
  intros Hlen. unfold trySlot.
  pose proof (filter_length (fun timestamp => now - timestamp <? interval rl)
                (timestamps rl)) as Hle.
  fold (prune rl now) in Hle.
  destruct (Z.of_nat (length (prune rl now)) >=? maxRequests rl) eqn:Hfull; simpl.
  - lia.
  - rewrite Z.geb_leb in Hfull. apply Z.leb_gt in Hfull.
    rewrite length_app. simpl. lia.
Qed.

Lemma waitForSlot_after_sleep rl now next later w :
  Z.of_nat (length (timestamps rl)) <= maxRequests rl ->
  snd (trySlot rl now) = false ->
  waitTime rl now = Some w ->
  now + w <= next ->
  exists rl', waitForSlot (now :: next :: later) rl = Some (next, later, rl').
Proof.
  intros Hlen Hfull Hw Hsleep. simpl.
  pose proof (filter_length (fun timestamp => now - timestamp <? interval rl)
                (timestamps rl)) as Hkept.
  fold (prune rl now) in Hkept.
  unfold trySlot in *. unfold waitTime in Hw.
  destruct (Z.of_nat (length (prune rl now)) >=? maxRequests rl) eqn:Hge;
    [|discriminate].
  destruct (prune rl now) as [|oldest kept] eqn:Hp; [discriminate|].
  injection Hw as <-. unfold prune at 1. simpl.
  assert (Hgone : (next - oldest <? interval rl) = false) by (apply Z.ltb_ge; lia).
  rewrite Hgone.
  pose proof (filter_length (fun timestamp => next - timestamp <? interval rl) kept)
    as Hrest.
  simpl in Hkept.
  destruct (Z.of_nat (length (List.filter _ kept)) >=? maxRequests rl) eqn:Hge'.
  - rewrite Z.geb_leb in Hge'. apply Z.leb_le in Hge'. lia.
  - eexists. reflexivity.
Qed.

(** The scenario of the specification: capacity 2, window 1000 ms, three
    calls at time 0; the third returns at time 1000. *)
Example three_calls_at_zero :
  fst (acquireAll 3 [0; 0; 0; 1000] (create 2 1000)) = [0; 0; 1000].
Proof. reflexivity. Qed.

Lemma sliding_window_never_over_capacity_witness :
  (grantsInWindow 1000 1000 (fst (acquireAll 3 [0; 0; 0; 1000]%Z (create 2 1000)))
   <= Z.to_nat 2)%nat.
Proof.
  apply (sliding_window_never_over_capacity 2 1000 3 0 [0; 0; 0; 1000] 1000).
  simpl. lia.
Defined.

End SlidingWindowFacts.

(** ** Token bucket: the token count stays between 0 and [maxTokens] *)

Module TokenBucketFacts.
Import TokenBucket.

















Example sampleCalls_tokens :
  map (fun rl => Qred (tokens rl)) (run (create 2 1 0) sampleCalls)
  = [1; 0; 0; 0; 0; 2]%Q.
Proof. reflexivity. Qed.



End TokenBucketFacts.

(** ** Retry with backoff: only rate limits are retried, at most three times *)

Module RetryFacts.
Import Retry.

Lemma throttleRequest_calls w : calls (throttleRequest w) = calls w.
Proof. unfold throttleRequest. destruct (_ <? _); reflexivity. Qed.

Lemma throttleRequest_backoffs w : backoffs (throttleRequest w) = backoffs w.
Proof. unfold throttleRequest. destruct (_ <? _); reflexivity. Qed.

(** The cases of [retryWithBackoff] that return without a retry. *)
Ltac no_retry H :=
  exists 0%nat; rewrite !Nat.add_0_r, H; cbn [fst snd calls backoffs map seq];
  rewrite ?throttleRequest_calls, ?throttleRequest_backoffs, app_nil_r;
  repeat split; try lia; auto.

(** The run of [retryWithBackoff] from any [retryCount]: [k] retries, each
    after a rate-limit error, the outcome being that of invocation [k]. *)
Lemma retry_from {T} (operation : nat -> Outcome T) (w : World) (retryCount : nat) :
  exists k : nat,
    (retryCount + k <= Nat.max retryCount MAX_RETRIES)%nat /\
    (forall i, (i < k)%nat -> rateLimited (operation (calls w + i)%nat) = true) /\
    ((retryCount + k < MAX_RETRIES)%nat ->
     rateLimited (operation (calls w + k)%nat) = false) /\
    fst (retryWithBackoff operation w retryCount) = operation (calls w + k)%nat /\
    calls (snd (retryWithBackoff operation w retryCount)) = S (calls w + k) /\
    backoffs (snd (retryWithBackoff operation w retryCount))
    = backoffs w ++ map backoffDelay (seq retryCount k).
Proof.
  funelim (retryWithBackoff operation w retryCount); try clear Heqcall;
    rewrite ?throttleRequest_calls in *.
  - no_retry H.
  - no_retry H.
  - destruct H as (k & Hk & Hpre & Hstop & Hres & Hcalls & Hlog).
    cbn [logBackoff calls backoffs] in Hpre, Hstop, Hres, Hcalls, Hlog.
    rewrite ?throttleRequest_calls, ?throttleRequest_backoffs in *.
    exists (S k). repeat split.
    + lia.
    + intros i Hi. destruct i as [|i].
      * rewrite !Nat.add_0_r, H0. exact Heq0.
      * replace (calls w + S i)%nat with (S (calls w) + i)%nat by lia.
        apply Hpre. lia.
    + intros Hlt. replace (calls w + S k)%nat with (S (calls w) + k)%nat by lia.
      apply Hstop. lia.
    + rewrite Hres. f_equal. lia.
    + rewrite Hcalls. lia.
    + rewrite Hlog, <- app_assoc. simpl. rewrite Nat.add_1_r. reflexivity.
  - no_retry H.
  - no_retry H.
Qed.

(** C6.  A call [retryWithBackoff(operation)] invokes the operation [k + 1]
    times for some [k <= MAX_RETRIES]: each of the first [k] invocations
    failed with a rate-limit error and was followed by a sleep of
    [INITIAL_BACKOFF * 2^i] ms ([i] = 0, ..., [k - 1]); invocation [k] either
    is the last one allowed ([k = MAX_RETRIES]) or did not fail with a
    rate-limit error; its outcome, value or error, is the outcome of the
    call, and the operation is not invoked again. *)
Theorem retryWithBackoff_policy {T} (operation : nat -> Outcome T) (w : World) :
  exists k : nat,
    (k <= MAX_RETRIES)%nat /\
    (forall i, (i < k)%nat -> rateLimited (operation (calls w + i)%nat) = true) /\
    ((k < MAX_RETRIES)%nat -> rateLimited (operation (calls w + k)%nat) = false) /\
    fst (retryWithBackoff operation w 0) = operation (calls w + k)%nat /\
    calls (snd (retryWithBackoff operation w 0)) = (calls w + k + 1)%nat /\
    backoffs (snd (retryWithBackoff operation w 0))
    = backoffs w ++ map (fun i => INITIAL_BACKOFF * 2 ^ Z.of_nat i) (seq 0 k).
Proof.
  destruct (retry_from operation w 0) as (k & Hk & Hpre & Hstop & Hres & Hcalls & Hlog).
  exists k. simpl in Hk, Hstop. repeat split; try assumption.
  rewrite Hcalls. lia.
Qed.

(** An endpoint that always answers 429 is called four times, with sleeps
    of 1, 2 and 4 seconds, and the error is surfaced. *)
Example always_rate_limited :
  let r := retryWithBackoff (fun _ => tooManyRequests) freshWorld 0 in
  fst r = tooManyRequests /\ calls (snd r) = 4%nat
  /\ backoffs (snd r) = [1000; 2000; 4000].
Proof. repeat split; reflexivity. Qed.

(** Another error is surfaced at once. *)
Example other_error_not_retried :
  let failure := Rejected (T := nat) (ErrorObject "connection reset") in
  let r := retryWithBackoff (fun _ => failure) freshWorld 0 in
  fst r = failure /\ calls (snd r) = 1%nat /\ backoffs (snd r) = [].
Proof. repeat split; reflexivity. Qed.

(** A rate limit that clears after two attempts. *)
Example recovers_after_two :
  let operation i := if (i <? 2)%nat then tooManyRequests else Resolved 7%nat in
  let r := retryWithBackoff operation freshWorld 0 in
  fst r = Resolved 7%nat /\ calls (snd r) = 3%nat /\ backoffs (snd r) = [1000; 2000].
Proof. repeat split; reflexivity. Qed.

End RetryFacts.

(** ** Risk evaluation *)

Module RiskFacts.
Import Risk.

Lemma prefix_append (needle a b : string) :
  String.prefix needle a = true -> String.prefix needle (String.append a b) = true.
Proof.
  revert a. induction needle as [|c needle IH]; intros a H;
    [destruct (String.append a b); reflexivity|].
  destruct a as [|d a]; simpl in *; [discriminate|].
  destruct (Ascii.ascii_dec c d); [apply IH; exact H | discriminate].
Qed.

Lemma includes_unfold (needle haystack : string) :
  Retry.includes needle haystack
  = String.prefix needle haystack ||
    match haystack with
    | EmptyString => false
    | String _ rest => Retry.includes needle rest
    end.
Proof. destruct haystack; reflexivity. Qed.

Lemma includes_append (needle a b : string) :
  Retry.includes needle a = true ->
  Retry.includes needle (String.append a b) = true.
Proof.
  induction a as [|c a IH]; intros H; rewrite includes_unfold in H;
    apply orb_true_iff in H as [H|H].
  - rewrite includes_unfold, (prefix_append _ _ b H). reflexivity.
  - discriminate.
  - rewrite includes_unfold, (prefix_append _ _ b H). reflexivity.
  - change (String.append (String c a) b) with (String c (String.append a b)).
    rewrite includes_unfold, (IH H). apply orb_true_r.
Qed.

Section Decisions.
Variable numberToString : Q -> string.

(** Each of the three short-circuits rejects. *)
Lemma short_circuit_rejects st market mint amount price portfolioValue riskProfile now :
  dailyTradeLimitReached st = true
  \/ dailyLossLimitReached st portfolioValue riskProfile = true
  \/ analyzeToken market mint = None ->
  approved (evaluateTradeRisk numberToString st market mint amount price
              portfolioValue riskProfile now) = false.
Proof.
  unfold evaluateTradeRisk, dailyTradeLimitReached, dailyLossLimitReached, getRiskProfile.
  intros H.
  destruct (tradeCount (dailyStats st) >=? maxDailyTrades st); [reflexivity|].
  destruct (Qltb _ (totalLoss (dailyStats st))); [reflexivity|].
  destruct (analyzeToken market mint); [|reflexivity].
  destruct H as [H|[H|H]]; discriminate.
Qed.

(** C7 (amended).  When [amount] exceeds [maxPositionSize] percent of
    [portfolioValue], the decision is never approved; and when no earlier
    check short-circuits (daily trade ceiling, daily loss ceiling, token
    metrics unavailable) its warnings include one that contains
    "maximum position size". *)
Theorem oversized_position_rejected st market mint amount price portfolioValue
  riskProfile now :
  (portfolioValue * maxPositionSize (getRiskProfile st riskProfile) / 100 < amount)%Q ->
  let decision := evaluateTradeRisk numberToString st market mint amount price
                    portfolioValue riskProfile now in
  approved decision = false
  /\ (dailyTradeLimitReached st = false ->
      dailyLossLimitReached st portfolioValue riskProfile = false ->
      analyzeToken market mint <> None ->
      exists warning, In warning (warnings decision)
        /\ Retry.includes "maximum position size" warning = true).
Proof.
  intros Hover. apply Qltb_true in Hover.
  unfold evaluateTradeRisk, dailyTradeLimitReached, dailyLossLimitReached,
    getRiskProfile in *.
  destruct (tradeCount (dailyStats st) >=? maxDailyTrades st);
    [split; [reflexivity | discriminate]|].
  destruct (Qltb _ (totalLoss (dailyStats st)));
    [split; [reflexivity | intros _; discriminate]|].
  destruct (analyzeToken market mint) as [tokenMetrics|];
    [|split; [reflexivity | intros _ _ H; congruence]].
  rewrite Hover.
  destruct (Qltb 0.8 _), (Qltb (liquidity tokenMetrics) _), (_ >=? _),
    (Qltb 0.5 _); simpl;
    (split; [reflexivity|]; intros _ _ _; eexists;
     split; [left; reflexivity | apply includes_append; reflexivity]).
Qed.


End Decisions.

Lemma updateDailyStats_tradeCount stats mint :
  tradeCount (updateDailyStats stats mint)
  = (tradeCount stats
     + if (2 <=? length (tradesOf stats mint))%nat then 1 else 0)%Z
  /\ trades (updateDailyStats stats mint) = trades stats.
Proof.
  unfold updateDailyStats.
  destruct (length (tradesOf stats mint) <? 2)%nat eqn:Hshort.
  - apply Nat.ltb_lt in Hshort.
    destruct (2 <=? length (tradesOf stats mint))%nat eqn:Hle;
      [apply Nat.leb_le in Hle; lia|]. split; [lia | reflexivity].
  - apply Nat.ltb_ge in Hshort.
    destruct (2 <=? length (tradesOf stats mint))%nat eqn:Hle;
      [|apply Nat.leb_gt in Hle; lia].
    destruct (tradesOf stats mint !! (length (tradesOf stats mint) - 1)%nat)
      as [lastTrade|] eqn:Hlast;
      [|apply lookup_ge_None in Hlast; lia].
    destruct (tradesOf stats mint !! (length (tradesOf stats mint) - 2)%nat)
      as [previousTrade|] eqn:Hprev;
      [|apply lookup_ge_None in Hprev; lia].
    destruct (isSell (t_type lastTrade) && isBuy (t_type previousTrade));
      [destruct (Qltb 0 _)|]; simpl; split; reflexivity.
Qed.

(** C10.  [updatePosition] appends the trade to the ledger of the mint, and
    [tradeCount] grows by one exactly when that ledger then holds at least
    two trades; otherwise, in particular for the first trade of a mint, it
    is unchanged. *)
Theorem tradeCount_grows_from_second_trade st market mint amount price type now :
  let st' := updatePosition st market mint amount price type now in
  let ledger := tradesOf (dailyStats st') mint in
  ledger = tradesOf (dailyStats st) mint ++ [mkTrade amount price now type]
  /\ (tradeCount (dailyStats st') = (tradeCount (dailyStats st) + 1)%Z
      <-> (2 <= length ledger)%nat)
  /\ (tradeCount (dailyStats st') = tradeCount (dailyStats st)
      <-> (length ledger < 2)%nat)
  /\ (tradesOf (dailyStats st) mint = [] ->
      tradeCount (dailyStats st') = tradeCount (dailyStats st)).
Proof.
  cbn zeta. unfold updatePosition. cbn [dailyStats].
  set (stats1 := mkDailyStats _ _ _ _ _).
  destruct (updateDailyStats_tradeCount stats1 mint) as [Hcount Htrades].
  assert (Hledger : tradesOf stats1 mint
                    = tradesOf (dailyStats st) mint ++ [mkTrade amount price now type]).
  { unfold tradesOf at 1. subst stats1. cbn [trades]. rewrite lookup_insert_eq.
    reflexivity. }
  assert (Hsame : tradesOf (updateDailyStats stats1 mint) mint = tradesOf stats1 mint).
  { unfold tradesOf. rewrite Htrades. reflexivity. }
  rewrite Hsame, Hcount, Hledger. subst stats1. cbn [tradeCount].
  rewrite length_app. simpl length.
  destruct (2 <=? length (tradesOf (dailyStats st) mint) + 1)%nat eqn:Hle.
  - apply Nat.leb_le in Hle. repeat split; intros; try lia.
    destruct (tradesOf (dailyStats st) mint); [simpl in Hle; lia | discriminate].
  - apply Nat.leb_gt in Hle. repeat split; intros; lia.
Qed.

(** The scenario of the specification: 100 units against a ceiling of 5% of
    1000. *)
Example oversized_order_scenario :
  let decision := evaluateTradeRisk showWhole (create 50 0) calmMarket "MINT"
                    100 1 1000 "default" 0 in
  approved decision = false
  /\ warnings decision = ["Amount exceeds maximum position size of 50"%string].
Proof. split; reflexivity. Qed.

Lemma oversized_position_rejected_witness :
  let decision := evaluateTradeRisk showWhole (create 50 0) calmMarket "MINT"
                    100 1 1000 "default" 0 in
  approved decision = false
  /\ (dailyTradeLimitReached (create 50 0) = false ->
      dailyLossLimitReached (create 50 0) 1000 "default" = false ->
      analyzeToken calmMarket "MINT" <> None ->
      exists warning, In warning (warnings decision)
        /\ Retry.includes "maximum position size" warning = true).
Proof.
  apply (oversized_position_rejected showWhole (create 50 0) calmMarket "MINT"
           100 1 1000 "default" 0).
  reflexivity.
Defined.

(** C7 as stated fails: the same oversized order, when the token metrics
    cannot be fetched, is rejected with the single warning of the
    short-circuit, which does not mention the position size. *)
Lemma oversized_without_size_warning :
  let decision := evaluateTradeRisk showWhole (create 50 0) silentMarket "MINT"
                    100 1 1000 "default" 0 in
  (1000 * maxPositionSize (getRiskProfile (create 50 0) "default") / 100 < 100)%Q
  /\ warnings decision = ["Unable to analyze token metrics"%string]
  /\ ~ exists warning, In warning (warnings decision)
        /\ Retry.includes "maximum position size" warning = true.
Proof.
  split; [reflexivity|]. split; [reflexivity|].
  intros (warning & [Hw|[]] & Hin). subst warning. vm_compute in Hin. discriminate.
Qed.

(** Three trades on a fresh service: the first buy of each mint is not
    counted, the sell that follows is. *)
Example tradeCount_after_three_trades :
  let st1 := updatePosition (create 50 0) calmMarket "A" 10 1 buy 1 in
  let st2 := updatePosition st1 calmMarket "B" 10 1 buy 2 in
  let st3 := updatePosition st2 calmMarket "A" 10 2 sell 3 in
  map (fun st => tradeCount (dailyStats st)) [st1; st2; st3] = [0; 0; 1]%Z.
Proof. reflexivity. Qed.

End RiskFacts.

(** ** Order management *)

Module OrdersFacts.
Import Orders.

(** *** The pending set *)

Lemma setHas_In x s : setHas x s = true <-> In x s.
Proof.
  unfold setHas. rewrite existsb_exists. split.
  - intros (y & Hy & Heq). apply String.eqb_eq in Heq. subst. exact Hy.
  - intros H. exists x. split; [exact H | apply String.eqb_refl].
Qed.

Lemma setAdd_In x y s : In x (setAdd y s) <-> x = y \/ In x s.
Proof.
  unfold setAdd. destruct (setHas y s) eqn:E.
  - apply setHas_In in E. split; [auto|]. intros [->|H]; assumption.
  - rewrite in_app_iff. simpl. split; intros H.
    + destruct H as [H|[H|[]]]; auto.
    + destruct H as [->|H]; auto.
Qed.

Lemma setAdd_NoDup y s : List.NoDup s -> List.NoDup (setAdd y s).
Proof.
  intros Hs. unfold setAdd. destruct (setHas y s) eqn:E; [exact Hs|].
  assert (Hy : ~ In y s).
  { intros H. apply setHas_In in H. congruence. }
  clear E. induction s as [|z s IH]; simpl.
  - constructor; [intros []|constructor].
  - inversion Hs as [|? ? Hz Hs']; subst. constructor.
    + rewrite in_app_iff. simpl. intros [H|[H|[]]]; [auto|].
      subst. apply Hy. left. reflexivity.
    + apply IH; [exact Hs'|]. intros H. apply Hy. right. exact H.
Qed.

Lemma setDelete_In x y s : In x (setDelete y s) <-> x <> y /\ In x s.
Proof.
  unfold setDelete. rewrite filter_In, negb_true_iff, String.eqb_neq.
  split; intros [H1 H2]; split; auto.
Qed.

Lemma setDelete_NoDup y s : List.NoDup s -> List.NoDup (setDelete y s).
Proof. apply List.NoDup_filter. Qed.

(** *** Well-formed services *)

Lemma WF_create : WF create.
Proof.
  constructor; simpl.
  - constructor.
  - intros k [].
  - intros k order H. rewrite lookup_empty in H. discriminate.
Qed.

(** [updateOrderStatus] on a stored order. *)
Lemma updateOrderStatus_lookup st k newStatus result now order :
  orders st !! k = Some order ->
  exists order',
    orders (updateOrderStatus st k newStatus result now)
    = <[k := order']> (orders st)
    /\ pendingOrders (updateOrderStatus st k newStatus result now) = pendingOrders st
    /\ status order' = newStatus /\ id order' = id order
    /\ retryCount order' = retryCount order /\ amount order' = amount order.
Proof.
  intros H. unfold updateOrderStatus. rewrite H.
  destruct result as [[signature p a t|e]|]; eexists; simpl; repeat split.
Qed.

Lemma Untouched_refl k st : Untouched k st st.
Proof. split; [reflexivity | tauto]. Qed.

Lemma Untouched_trans k st1 st2 st3 :
  Untouched k st1 st2 -> Untouched k st2 st3 -> Untouched k st1 st3.
Proof. intros [H1 H2] [H3 H4]. split; [congruence | tauto]. Qed.

(** A stored order is replaced by one of the same id and the status
    [newStatus], and [k] leaves the pending set unless the new status is
    [PENDING]. *)
Lemma WF_replace st k order' pending' :
  WF st ->
  id order' = k ->
  List.NoDup pending' ->
  (forall j, In j pending' -> In j (pendingOrders st)) ->
  (In k pending' -> status order' = PENDING) ->
  WF (mkService (<[k := order']> (orders st)) pending').
Proof.
  intros [Hnd Hp Hid] Hk Hnd' Hsub Hst. constructor; simpl.
  - exact Hnd'.
  - intros j Hj. destruct (String.eqb_spec k j) as [->|Hne].
    + exists order'. rewrite lookup_insert_eq. split; [reflexivity|]. apply Hst, Hj.
    + rewrite lookup_insert_ne by exact Hne. apply Hp, Hsub, Hj.
  - intros j order Hj. destruct (String.eqb_spec k j) as [->|Hne].
    + rewrite lookup_insert_eq in Hj. injection Hj as <-. exact Hk.
    + rewrite lookup_insert_ne in Hj by exact Hne. apply Hid, Hj.
Qed.

Lemma processOrder_pending execute now st k :
  WF st -> In k (pendingOrders st) ->
  WF (processOrder execute now st k)
  /\ (forall j, j <> k -> Untouched j st (processOrder execute now st k))
  /\ Attempted execute k st (processOrder execute now st k).
Proof.
  intros HWF Hin.
  destruct (wf_pending st HWF k Hin) as (order & Hget & Hpending).
  pose proof (wf_ids st HWF k order Hget) as Hid.
  unfold processOrder. rewrite Hget.
  assert (Hrm : orders (removePending st k) !! k = Some order) by exact Hget.
  destruct (success (execute order)) eqn:Hsucc;
    [|destruct (retryCount order >=? MAX_RETRIES)%Z eqn:Hmax].
  - destruct (updateOrderStatus_lookup _ k FILLED (Some (execute order)) now order Hrm)
      as (order' & Ho & Hp & Hs & Hi & Hr & Ha).
    set (st' := updateOrderStatus _ _ _ _ _) in *.
    assert (Hst' : st' = mkService (<[k := order']> (orders st))
                                   (setDelete k (pendingOrders st))).
    { destruct st' as [o p]. simpl in Ho, Hp. subst. reflexivity. }
    rewrite Hst'. split; [|split].
    + apply WF_replace;
        [exact HWF | congruence | apply setDelete_NoDup, HWF
        | intros j Hj; apply setDelete_In in Hj; tauto
        | intros Hj; apply setDelete_In in Hj; tauto].
    + intros j Hne. split; simpl.
      * apply lookup_insert_ne. congruence.
      * rewrite setDelete_In. tauto.
    + exists order, order'. simpl. rewrite lookup_insert_eq.
      repeat split; try assumption. left. repeat split; try assumption.
      rewrite setDelete_In. tauto.
  - destruct (updateOrderStatus_lookup _ k FAILED (Some (execute order)) now order Hrm)
      as (order' & Ho & Hp & Hs & Hi & Hr & Ha).
    set (st' := updateOrderStatus _ _ _ _ _) in *.
    assert (Hst' : st' = mkService (<[k := order']> (orders st))
                                   (setDelete k (pendingOrders st))).
    { destruct st' as [o p]. simpl in Ho, Hp. subst. reflexivity. }
    rewrite Hst'. split; [|split].
    + apply WF_replace;
        [exact HWF | congruence | apply setDelete_NoDup, HWF
        | intros j Hj; apply setDelete_In in Hj; tauto
        | intros Hj; apply setDelete_In in Hj; tauto].
    + intros j Hne. split; simpl.
      * apply lookup_insert_ne. congruence.
      * rewrite setDelete_In. tauto.
    + exists order, order'. simpl. rewrite lookup_insert_eq.
      repeat split; try assumption. right. left.
      rewrite Z.geb_leb in Hmax. apply Z.leb_le in Hmax.
      repeat split; try assumption. rewrite setDelete_In. tauto.
  - split; [|split].
    + apply WF_replace;
        [exact HWF | exact Hid | apply HWF | auto | intros _; exact Hpending].
    + intros j Hne. split; simpl; [|tauto].
      apply lookup_insert_ne. congruence.
    + exists order, (noteFailure order (errorOf (execute order))). simpl.
      rewrite lookup_insert_eq. repeat split; try assumption. right. right.
      rewrite Z.geb_leb in Hmax. apply Z.leb_gt in Hmax.
      repeat split; try assumption.
Qed.

Lemma Attempted_before execute k st0 st st' :
  Untouched k st0 st -> Attempted execute k st st' -> Attempted execute k st0 st'.
Proof.
  intros [Ho _] (order & order' & H1 & H2 & H3). exists order, order'.
  rewrite <- Ho. auto.
Qed.

Lemma Attempted_after execute k st st' st'' :
  Attempted execute k st st' -> Untouched k st' st'' -> Attempted execute k st st''.
Proof.
  intros (order & order' & H1 & H2 & H3 & H4) [Ho Hp]. exists order, order'.
  rewrite Ho. repeat split; try assumption. tauto.
Qed.

(** A scan over the ids [todo], all of them pending: each is attempted
    once and the other orders are not touched. *)
Lemma scan_todo execute now todo : forall st,
  WF st -> List.NoDup todo -> (forall k, In k todo -> In k (pendingOrders st)) ->
  let st' := fold_left (processOrder execute now) todo st in
  WF st'
  /\ (forall k, ~ In k todo -> Untouched k st st')
  /\ (forall k, In k todo -> Attempted execute k st st').
Proof.
  induction todo as [|k0 rest IH]; intros st HWF Hnd Hsub; simpl.
  - split; [exact HWF|]. split; [intros; apply Untouched_refl | intros k []].
  - inversion Hnd as [|? ? Hk0 Hnd']; subst.
    destruct (processOrder_pending execute now st k0 HWF (Hsub k0 (or_introl eq_refl)))
      as (HWF1 & Hother & Hatt).
    set (st1 := processOrder execute now st k0) in *.
    assert (Hsub1 : forall k, In k rest -> In k (pendingOrders st1)).
    { intros k Hk. apply (Hother k).
      - intros ->. contradiction.
      - apply Hsub. right. exact Hk. }
    destruct (IH st1 HWF1 Hnd' Hsub1) as (HWF' & Hun & Hatt').
    split; [exact HWF'|]. split.
    + intros k Hk. apply (Untouched_trans k st st1).
      * apply Hother. intros ->. apply Hk. left. reflexivity.
      * apply Hun. intros H. apply Hk. right. exact H.
    + intros k [<-|Hk].
      * eapply Attempted_after; [exact Hatt|]. apply Hun. exact Hk0.
      * eapply Attempted_before; [|apply Hatt'; exact Hk].
        apply Hother. intros ->. contradiction.
Qed.

Lemma processPendingOrders_effect execute now st :
  WF st ->
  let st' := processPendingOrders execute now st in
  WF st'
  /\ (forall k, ~ In k (pendingOrders st) -> Untouched k st st')
  /\ (forall k, In k (pendingOrders st) -> Attempted execute k st st').
Proof.
  intros HWF. apply scan_todo; [exact HWF | apply HWF | auto].
Qed.

(** [createOrder]: either nothing is stored and [null] is returned, or a
    new [PENDING] order is stored under the generated id. *)
Lemma createOrder_effect st env orderId now mint side type amount price strategy :
  let riskCheck :=
    Risk.evaluateTradeRisk (numberToString env) (riskManagement env)
      (marketAnalysis env) mint amount
      (if truthy price then default 0%Q price else getCurrentPrice env mint)
      getPortfolioValue "default" now in
  let refused := (MAX_CONCURRENT_ORDERS <=? length (pendingOrders st))%nat
                 || negb (Risk.approved riskCheck) in
  let '(st', result) := createOrder st env orderId now mint side type amount
                          price strategy in
  if refused
  then result = None /\ st' = st
  else result = Some orderId
       /\ exists order,
            st' = mkService (<[orderId := order]> (orders st))
                            (setAdd orderId (pendingOrders st))
            /\ id order = orderId /\ status order = PENDING
            /\ retryCount order = 0%Z /\ fills order = []
            /\ Orders.amount order = amount.
Proof.
  cbn zeta. unfold createOrder.
  destruct (MAX_CONCURRENT_ORDERS <=? length (pendingOrders st))%nat; simpl;
    [split; reflexivity|].
  destruct (Risk.approved _); simpl; [|split; reflexivity].
  split; [reflexivity|]. eexists. repeat split.
Qed.

Lemma createOrder_WF st env orderId now mint side type amount price strategy :
  WF st ->
  WF (fst (createOrder st env orderId now mint side type amount price strategy))
  /\ forall k, k <> orderId ->
       Untouched k st
         (fst (createOrder st env orderId now mint side type amount price strategy)).
Proof.
  intros HWF.
  pose proof (createOrder_effect st env orderId now mint side type amount price strategy)
    as H. cbn zeta in H.
  destruct (createOrder st env orderId now mint side type amount price strategy)
    as [st' result]. simpl.
  destruct (_ || _).
  - destruct H as [_ ->]. split; [exact HWF | intros; apply Untouched_refl].
  - destruct H as (_ & order & -> & Hid & Hst & _). split.
    + constructor; simpl.
      * apply setAdd_NoDup, HWF.
      * intros k Hk. destruct (String.eqb_spec orderId k) as [->|Hne].
        -- exists order. rewrite lookup_insert_eq. auto.
        -- rewrite lookup_insert_ne by exact Hne. apply (wf_pending st HWF).
           apply setAdd_In in Hk as [Hk|Hk]; [congruence | exact Hk].
      * intros k order0 Hk. destruct (String.eqb_spec orderId k) as [->|Hne].
        -- rewrite lookup_insert_eq in Hk. injection Hk as <-. exact Hid.
        -- rewrite lookup_insert_ne in Hk by exact Hne. apply (wf_ids st HWF), Hk.
    + intros k Hne. split; simpl.
      * apply lookup_insert_ne. congruence.
      * rewrite setAdd_In. split; [intros [H|H]; [congruence | exact H] | auto].
Qed.

(** [cancelOrder]: a stored [PENDING] order becomes [CANCELLED] and leaves
    the pending set; anything else is refused and changes nothing. *)
Lemma cancelOrder_effect st k now :
  WF st ->
  let '(st', done) := cancelOrder st k now in
  WF st'
  /\ (forall j, j <> k -> Untouched j st st')
  /\ match orders st !! k with
     | Some order =>
         if statusEqb (status order) PENDING
         then done = true /\ ~ In k (pendingOrders st')
              /\ exists order', orders st' !! k = Some order'
                   /\ status order' = CANCELLED
         else done = false /\ st' = st
     | None => done = false /\ st' = st
     end.
Proof.
  intros HWF. unfold cancelOrder.
  destruct (orders st !! k) as [order|] eqn:Hget;
    [|split; [exact HWF|]; split; [intros; apply Untouched_refl | auto]].
  destruct (status order) eqn:Hst; simpl;
    try (split; [exact HWF|]; split; [intros; apply Untouched_refl | auto]).
  assert (Hrm : orders (removePending st k) !! k = Some order) by exact Hget.
  destruct (updateOrderStatus_lookup _ k CANCELLED None now order Hrm)
    as (order' & Ho & Hp & Hs & Hi & Hr & Ha).
  set (st' := updateOrderStatus _ _ _ _ _) in *.
  assert (Hst' : st' = mkService (<[k := order']> (orders st))
                                 (setDelete k (pendingOrders st))).
  { destruct st' as [o p]. simpl in Ho, Hp. subst. reflexivity. }
  rewrite Hst'. split; [|split].
  - apply WF_replace;
      [exact HWF | rewrite Hi; apply (wf_ids st HWF), Hget
      | apply setDelete_NoDup, HWF
      | intros j Hj; apply setDelete_In in Hj; tauto
      | intros Hj; apply setDelete_In in Hj; tauto].
  - intros j Hne. split; simpl.
    + apply lookup_insert_ne. congruence.
    + rewrite setDelete_In. tauto.
  - simpl. split; [reflexivity|]. split.
    + rewrite setDelete_In. tauto.
    + exists order'. rewrite lookup_insert_eq. auto.
Qed.

(** C9.  When the pending set already holds [MAX_CONCURRENT_ORDERS] ids or
    the risk check does not approve, [createOrder] returns [null]; and
    whenever it returns [null] (every error of its [try] block ends there)
    the order map and the pending set are what they were. *)
Theorem createOrder_refusal_changes_nothing st env orderId now mint side type
  amount price strategy :
  let riskCheck :=
    Risk.evaluateTradeRisk (numberToString env) (riskManagement env)
      (marketAnalysis env) mint amount
      (if truthy price then default 0%Q price else getCurrentPrice env mint)
      getPortfolioValue "default" now in
  let outcome := createOrder st env orderId now mint side type amount price
                   strategy in
  ((MAX_CONCURRENT_ORDERS <= length (pendingOrders st))%nat
   \/ Risk.approved riskCheck = false -> snd outcome = None)
  /\ (snd outcome = None ->
      orders (fst outcome) = orders st
      /\ pendingOrders (fst outcome) = pendingOrders st).
Proof.
  pose proof (createOrder_effect st env orderId now mint side type amount price strategy)
    as H. cbn zeta in *.
  destruct (createOrder st env orderId now mint side type amount price strategy)
    as [st' result]. simpl.
  destruct (MAX_CONCURRENT_ORDERS <=? length (pendingOrders st))%nat eqn:Hfull;
    simpl in H.
  - destruct H as [-> ->]. auto.
  - apply Nat.leb_gt in Hfull. destruct (Risk.approved _); simpl in H.
    + destruct H as (-> & _). split; [|discriminate].
      intros [Hlen|Hno]; [lia | discriminate].
    + destruct H as [-> ->]. auto.
Qed.

(** *** The state machine of an order *)




Lemma apply_WF st op : WF st -> WF (apply st op).
Proof.
  intros HWF. destruct op as [r|execute now|execute now k|k now]; simpl.
  - apply createOrder_WF, HWF.
  - apply (processPendingOrders_effect execute now st HWF).
  - destruct (setHas k (pendingOrders st)) eqn:Hhas; [|exact HWF].
    apply processOrder_pending; [exact HWF | apply setHas_In, Hhas].
  - pose proof (cancelOrder_effect st k now HWF) as H.
    destruct (cancelOrder st k now). apply H.
Qed.








(** *** Retries *)








(** *** Fill accounting *)

Lemma fold_left_sum (g : OrderFill -> Q) (l : list OrderFill) : forall a : Q,
  (fold_left (fun sum fill => sum + g fill) l a == a + sumQ (map g l))%Q.
Proof.
  induction l as [|f l IH]; intros a; simpl.
  - ring.
  - rewrite IH. ring.
Qed.

Lemma totalAmount_sum fills : (totalAmount fills == filledAmount fills)%Q.
Proof.
  unfold totalAmount, filledAmount. rewrite (fold_left_sum f_amount). ring.
Qed.

Lemma weightedSum_sum fills : (weightedSum fills == filledValue fills)%Q.
Proof.
  unfold weightedSum, filledValue.
  rewrite (fold_left_sum (fun fill => f_price fill * f_amount fill)%Q). ring.
Qed.

Lemma recordFill_lookup st k x order :
  orders st !! k = Some order ->
  exists order',
    orders (recordFill k st x) !! k = Some order'
    /\ fills order' = fills order ++ [x_fill x]
    /\ amount order' = amount order
    /\ Accounted order'.
Proof.
  intros Hget. unfold recordFill, updateOrderStatus. rewrite Hget.
  eexists. simpl. rewrite lookup_insert_eq. split; [reflexivity|].
  destruct (x_fill x). simpl. repeat split.
Qed.

Lemma recordFills_lookup k xs : forall st x order,
  orders st !! k = Some order ->
  exists order',
    orders (recordFills st k (x :: xs)) !! k = Some order'
    /\ fills order' = fills order ++ map x_fill (x :: xs)
    /\ amount order' = amount order
    /\ Accounted order'.
Proof.
  induction xs as [|y ys IH]; intros st x order Hget.
  - apply recordFill_lookup, Hget.
  - destruct (recordFill_lookup st k x order Hget) as (o1 & Hget1 & Hf1 & Ha1 & _).
    destruct (IH (recordFill k st x) y o1 Hget1) as (o2 & Hget2 & Hf2 & Ha2 & Hacc).
    exists o2. split; [exact Hget2|]. split; [|split; [congruence | exact Hacc]].
    rewrite Hf2, Hf1, <- app_assoc. reflexivity.
Qed.

(** C3.  After any non-empty sequence of fills recorded against a stored
    order, its [fills] are the earlier ones followed by the recorded ones,
    [averagePrice] is the sum of [price * amount] over its fills divided by
    the sum of [amount], and [remainingAmount] is the larger of 0 and
    [amount] minus the sum of [amount] over its fills.  (Where the amounts
    sum to 0 the quotient is [NaN] or infinite in JavaScript and 0 in [Q];
    the equation then says nothing about the source.) *)
Theorem fill_accounting (st : Service) (k : string) (order : Order)
  (x : Execution) (xs : list Execution) :
  orders st !! k = Some order ->
  exists order',
    orders (recordFills st k (x :: xs)) !! k = Some order'
    /\ fills order' = fills order ++ map x_fill (x :: xs)
    /\ (averagePrice order'
        == filledValue (fills order') / filledAmount (fills order'))%Q
    /\ (remainingAmount order'
        == Qmax 0 (amount order - filledAmount (fills order')))%Q.
Proof.
  intros Hget.
  destruct (recordFills_lookup k xs st x order Hget)
    as (order' & Hget' & Hfills & Hamount & Havg & Hrem).
  exists order'. split; [exact Hget'|]. split; [exact Hfills|].
  rewrite Havg, Hrem, Hamount. split.
  - rewrite weightedSum_sum, totalAmount_sum. reflexivity.
  - apply Q.max_compat; [reflexivity|].
    rewrite totalAmount_sum. reflexivity.
Qed.

(** The scans and the other operations keep the derived fields of every
    stored order in step with its fills. *)
Lemma AllBooked_insert st k order pending' :
  AllBooked st -> Booked order ->
  AllBooked (mkService (<[k := order]> (orders st)) pending').
Proof.
  intros Hall Hb j o Hj. simpl in Hj.
  destruct (String.eqb_spec k j) as [->|Hne].
  - rewrite lookup_insert_eq in Hj. injection Hj as <-. exact Hb.
  - rewrite lookup_insert_ne in Hj by exact Hne. apply (Hall j), Hj.
Qed.

Lemma updateOrderStatus_booked st k newStatus result now :
  AllBooked st -> AllBooked (updateOrderStatus st k newStatus result now).
Proof.
  intros Hall. unfold updateOrderStatus.
  destruct (orders st !! k) as [order|] eqn:Hget; [|exact Hall].
  apply AllBooked_insert; [exact Hall|].
  destruct result as [[signature p a t|e]|].
  - right. split; [simpl; intros H; symmetry in H; exact (app_cons_not_nil _ _ _ H)
                 | split; reflexivity].
  - exact (Hall k order Hget).
  - exact (Hall k order Hget).
Qed.

Lemma processOrder_booked execute now st k :
  AllBooked st -> AllBooked (processOrder execute now st k).
Proof.
  intros Hall. unfold processOrder.
  destruct (orders st !! k) as [order|] eqn:Hget; [|exact Hall].
  destruct (success (execute order));
    [|destruct (retryCount order >=? MAX_RETRIES)%Z].
  - apply updateOrderStatus_booked. exact Hall.
  - apply updateOrderStatus_booked. exact Hall.
  - apply AllBooked_insert; [exact Hall|]. exact (Hall k order Hget).
Qed.

Lemma apply_booked st op : AllBooked st -> AllBooked (apply st op).
Proof.
  intros Hall. destruct op as [r|execute now|execute now k|k now]; simpl.
  - unfold submit, createOrder.
    destruct (_ <=? _)%nat; [exact Hall|].
    destruct (negb _); [exact Hall|]. simpl.
    apply AllBooked_insert; [exact Hall|]. left. repeat split.
  - unfold processPendingOrders. generalize (pendingOrders st) at 1. intros todo.
    revert st Hall. induction todo as [|k todo IH]; intros st Hall; [exact Hall|].
    apply IH, processOrder_booked, Hall.
  - destruct (setHas k (pendingOrders st)); [|exact Hall].
    apply processOrder_booked, Hall.
  - unfold cancelOrder. destruct (orders st !! k) as [order|]; [|exact Hall].
    destruct (status order); try exact Hall. simpl.
    apply updateOrderStatus_booked. exact Hall.
Qed.

Lemma run_booked ops : forall st, AllBooked st -> AllBooked (run st ops).
Proof.
  induction ops as [|op ops IH]; intros st Hall; [exact Hall|].
  apply IH, apply_booked, Hall.
Qed.

(** In every state the service reaches, an order that has fills has the
    average price and the remaining amount its fills give. *)
Corollary reachable_orders_accounted ops k order :
  orders (run create ops) !! k = Some order ->
  fills order <> [] ->
  (averagePrice order == filledValue (fills order) / filledAmount (fills order))%Q
  /\ (remainingAmount order
      == Qmax 0 (amount order - filledAmount (fills order)))%Q.
Proof.
  intros Hget Hfills.
  assert (Hall : AllBooked (run create ops)).
  { apply run_booked. intros j o Hj. simpl in Hj. rewrite lookup_empty in Hj.
    discriminate. }
  destruct (Hall k order Hget) as [[Hnil _]|[_ [Havg Hrem]]]; [contradiction|].
  rewrite Havg, Hrem. split.
  - rewrite weightedSum_sum, totalAmount_sum. reflexivity.
  - apply Q.max_compat; [reflexivity|]. rewrite totalAmount_sum. reflexivity.
Qed.

(** *** A worked scenario *)


Example sampleService_order :
  snd (submit create sampleRequest) = Some "order_1"%string
  /\ orders sampleService !! "order_1"%string = Some createdOrder
  /\ pendingOrders sampleService = ["order_1"%string].
Proof. repeat split; reflexivity. Qed.




Example sampleFills_accounting :
  (fun order => (Qred (averagePrice order), Qred (remainingAmount order)))
    <$> orders (recordFills sampleService "order_1" sampleFills) !! "order_1"%string
  = Some (16 # 5, 0)%Q.
Proof. reflexivity. Qed.

Lemma fill_accounting_witness :
  exists order',
    orders (recordFills sampleService "order_1" sampleFills) !! "order_1"%string
    = Some order'
    /\ fills order' = fills createdOrder ++ map x_fill sampleFills
    /\ (averagePrice order'
        == filledValue (fills order') / filledAmount (fills order'))%Q
    /\ (remainingAmount order'
        == Qmax 0 (amount createdOrder - filledAmount (fills order')))%Q.
Proof.
  apply (fill_accounting sampleService "order_1" createdOrder
           (mkExecution PENDING "sig_1" (mkFill 2 4 7) 7)
           [mkExecution FILLED "sig_2" (mkFill 4 6 8) 8]).
  reflexivity.
Defined.

End OrdersFacts.

(** ** Order management: the order book between the operations *)

Module OrderBookFacts.
Import Orders OrdersFacts.

Lemma setDelete_length x s : (length (setDelete x s) <= length s)%nat.
Proof.
  unfold setDelete. induction s as [|y s IH]; simpl; [lia|].
  destruct (negb (String.eqb x y)); simpl; lia.
Qed.

Lemma setAdd_length x s : (length (setAdd x s) <= S (length s))%nat.
Proof.
  unfold setAdd. destruct (setHas x s); [lia|]. rewrite length_app. simpl. lia.
Qed.

Lemma statusEqb_eq a b : statusEqb a b = true <-> a = b.
Proof. destruct a, b; simpl; split; intros H; try reflexivity; discriminate. Qed.

(** The order that [updateOrderStatus] stores. *)
Lemma updateOrderStatus_order st k newStatus result now order :
  orders st !! k = Some order ->
  exists order',
    updateOrderStatus st k newStatus result now
    = mkService (<[k := order']> (orders st)) (pendingOrders st)
    /\ status order' = newStatus
    /\ retryCount order' = retryCount order
    /\ warnings order' = warnings order
    /\ fills order'
       = match result with
         | Some (Executed _ p a t) => fills order ++ [mkFill p a t]
         | _ => fills order
         end.
Proof.
  intros H. unfold updateOrderStatus. rewrite H.
  destruct result as [[signature p a t|e]|]; eexists; simpl; repeat split.
Qed.

Lemma Sound_create : Sound create.
Proof.
  constructor; simpl.
  - exact WF_create.
  - intros k order H. rewrite lookup_empty in H. discriminate.
  - unfold MAX_CONCURRENT_ORDERS. lia.
  - intros k order H. rewrite lookup_empty in H. discriminate.
Qed.

(** One iteration of a scan keeps the service sound. *)
Lemma processOrder_Sound execute now st k :
  Sound st -> In k (pendingOrders st) -> Sound (processOrder execute now st k).
Proof.
  intros [HWF Hconv Hbound Hlife] Hin.
  destruct (processOrder_pending execute now st k HWF Hin) as (HWF' & Hun & Hatt).
  destruct (wf_pending st HWF k Hin) as (order & Hget & Hpend).
  pose proof (Hlife k order Hget) as [Hr Hw Hf Hfi].
  rewrite Hpend in Hfi. simpl in Hfi.
  assert (Hlen : (length (pendingOrders (processOrder execute now st k))
                  <= length (pendingOrders st))%nat).
  { unfold processOrder. rewrite Hget.
    destruct (success (execute order)); [|destruct (_ >=? _)%Z]; simpl;
      try (destruct (updateOrderStatus_order (removePending st k) k FILLED
                       (Some (execute order)) now order Hget) as (o & -> & _));
      try (destruct (updateOrderStatus_order (removePending st k) k FAILED
                       (Some (execute order)) now order Hget) as (o & -> & _));
      simpl; try apply setDelete_length; lia. }
  assert (Hk : forall order', orders (processOrder execute now st k) !! k = Some order' ->
               Lifecycle order').
  { unfold processOrder. rewrite Hget.
    destruct (success (execute order)) eqn:Hs;
      [|destruct (retryCount order >=? MAX_RETRIES)%Z eqn:Hmax].
    - destruct (updateOrderStatus_order (removePending st k) k FILLED
                  (Some (execute order)) now order Hget)
        as (o & -> & Hst & Hrc & Hwa & Hfl).
      simpl. rewrite lookup_insert_eq. intros order' H. injection H as <-.
      destruct (execute order) as [sg p a t|e]; [|discriminate].
      constructor; rewrite ?Hst, ?Hrc, ?Hwa, ?Hfl; try assumption; try discriminate.
      rewrite length_app. simpl. lia.
    - destruct (updateOrderStatus_order (removePending st k) k FAILED
                  (Some (execute order)) now order Hget)
        as (o & -> & Hst & Hrc & Hwa & Hfl).
      simpl. rewrite lookup_insert_eq. intros order' H. injection H as <-.
      destruct (execute order) as [sg p a t|e]; [discriminate|].
      rewrite Z.geb_leb in Hmax. apply Z.leb_le in Hmax.
      constructor; rewrite ?Hst, ?Hrc, ?Hwa, ?Hfl; try assumption.
      intros _. lia.
    - simpl. rewrite lookup_insert_eq. intros order' H. injection H as <-.
      rewrite Z.geb_leb in Hmax. apply Z.leb_gt in Hmax.
      constructor; simpl.
      + lia.
      + rewrite length_app. simpl. rewrite Hw. lia.
      + rewrite Hpend. discriminate.
      + rewrite Hpend. simpl. exact Hfi. }
  constructor.
  - exact HWF'.
  - intros j o Hj Hs. destruct (String.eqb_spec j k) as [->|Hne].
    + destruct Hatt as (o0 & o' & _ & Ho' & _ & Hcase).
      assert (o' = o) by congruence. subst o'.
      destruct Hcase as [(_ & Hst & _)|[(_ & _ & Hst & _)|(_ & _ & _ & _ & Hin')]];
        [congruence | congruence | exact Hin'].
    + destruct (Hun j Hne) as [Ho Hp]. apply Hp. rewrite Ho in Hj.
      exact (Hconv j o Hj Hs).
  - lia.
  - intros j o Hj. destruct (String.eqb_spec j k) as [->|Hne].
    + exact (Hk o Hj).
    + destruct (Hun j Hne) as [Ho _]. rewrite Ho in Hj. exact (Hlife j o Hj).
Qed.

Lemma scan_Sound execute now todo : forall st,
  Sound st -> List.NoDup todo -> (forall k, In k todo -> In k (pendingOrders st)) ->
  Sound (fold_left (processOrder execute now) todo st).
Proof.
  induction todo as [|k0 rest IH]; intros st HS Hnd Hsub; simpl; [exact HS|].
  inversion Hnd as [|? ? Hk0 Hnd']; subst.
  assert (Hin : In k0 (pendingOrders st)) by (apply Hsub; left; reflexivity).
  apply IH; [apply processOrder_Sound; assumption | exact Hnd' |].
  intros k Hk.
  destruct (processOrder_pending execute now st k0 (sd_wf st HS) Hin) as (_ & Hun & _).
  apply (Hun k).
  - intros ->. contradiction.
  - apply Hsub. right. exact Hk.
Qed.

(** The two outcomes of [createOrder]: refused without a change, or the
    new order stored and pending. *)
Lemma createOrder_cases st env orderId now mint side type amount price strategy :
  createOrder st env orderId now mint side type amount price strategy = (st, None)
  \/ (length (pendingOrders st) < MAX_CONCURRENT_ORDERS)%nat
     /\ exists stop take,
          createOrder st env orderId now mint side type amount price strategy
          = (mkService
               (<[orderId := mkOrder orderId mint side type amount price strategy PENDING
                               now now [] amount 0 0 [] stop take]> (orders st))
               (setAdd orderId (pendingOrders st)),
             Some orderId).
Proof.
  unfold createOrder.
  destruct (MAX_CONCURRENT_ORDERS <=? length (pendingOrders st))%nat eqn:Hfull;
    [left; reflexivity|].
  destruct (negb _); [left; reflexivity|].
  right. apply Nat.leb_gt in Hfull. split; [exact Hfull|]. eauto.
Qed.

Lemma apply_Sound st op : Sound st -> Sound (apply st op).
Proof.
  intros HS. pose proof (apply_WF st op (sd_wf st HS)) as HWF'.
  destruct op as [r|execute now|execute now k|k now].
  - destruct r as [env orderId now mint side type amount price strategy].
    unfold apply, submit in *. cbn [r_env r_orderId r_now r_mint r_side r_type r_amount
                                    r_price r_strategy] in *.
    destruct (createOrder_cases st env orderId now mint side type amount price strategy)
      as [->|(Hfree & stop & take & Heq)]; [exact HS|].
    rewrite Heq in *. cbn [fst] in *.
    destruct HS as [HWF Hconv Hbound Hlife].
    constructor; simpl.
    + exact HWF'.
    + intros k o Hk Hs. apply setAdd_In.
      destruct (String.eqb_spec orderId k) as [->|Hne]; [left; reflexivity|].
      rewrite lookup_insert_ne in Hk by exact Hne. right. exact (Hconv k o Hk Hs).
    + pose proof (setAdd_length orderId (pendingOrders st)). lia.
    + intros k o Hk. destruct (String.eqb_spec orderId k) as [->|Hne].
      * rewrite lookup_insert_eq in Hk. injection Hk as <-.
        constructor; simpl; try (unfold MAX_RETRIES; lia); try discriminate;
          reflexivity.
      * rewrite lookup_insert_ne in Hk by exact Hne. exact (Hlife k o Hk).
  - apply scan_Sound; [exact HS | apply HS | auto].
  - simpl in *. destruct (setHas k (pendingOrders st)) eqn:Hhas; [|exact HS].
    apply processOrder_Sound; [exact HS | apply setHas_In, Hhas].
  - simpl in *. unfold cancelOrder in *.
    destruct (orders st !! k) as [order|] eqn:Hget; [|exact HS].
    destruct (status order) eqn:Hst; try exact HS. simpl in *.
    destruct (updateOrderStatus_order (removePending st k) k CANCELLED None now order Hget)
      as (o & Heq & Hs' & Hrc & Hwa & Hfl).
    rewrite Heq in *. clear Heq.
    destruct HS as [HWF Hconv Hbound Hlife].
    pose proof (Hlife k order Hget) as [Hr Hw Hf Hfi].
    rewrite Hst in Hfi. simpl in Hfi.
    constructor; simpl.
    + exact HWF'.
    + intros j oj Hj Hs. apply setDelete_In.
      destruct (String.eqb_spec k j) as [->|Hne].
      * rewrite lookup_insert_eq in Hj. injection Hj as <-. congruence.
      * rewrite lookup_insert_ne in Hj by exact Hne. split; [congruence|].
        exact (Hconv j oj Hj Hs).
    + pose proof (setDelete_length k (pendingOrders st)). lia.
    + intros j oj Hj. destruct (String.eqb_spec k j) as [->|Hne].
      * rewrite lookup_insert_eq in Hj. injection Hj as <-.
        constructor; rewrite ?Hs', ?Hrc, ?Hwa, ?Hfl; try assumption; try discriminate.
      * rewrite lookup_insert_ne in Hj by exact Hne. exact (Hlife j oj Hj).
Qed.

Lemma run_Sound ops : forall st, Sound st -> Sound (run st ops).
Proof.
  induction ops as [|op ops IH]; intros st HS; [exact HS|].
  apply IH, apply_Sound, HS.
Qed.

(** X1.  However orders are created, scanned and cancelled, the pending set
    never holds more than [MAX_CONCURRENT_ORDERS] (10) ids. *)
Theorem pending_orders_never_exceed_limit ops :
  (length (pendingOrders (run create ops)) <= MAX_CONCURRENT_ORDERS)%nat.
Proof. apply run_Sound, Sound_create. Qed.

Lemma getOrders_In st wanted order :
  In order (getOrders st (Some wanted))
  <-> (exists k, orders st !! k = Some order) /\ status order = wanted.
Proof.
  unfold getOrders. rewrite filter_In, statusEqb_eq, <- list_elem_of_In.
  rewrite list_elem_of_fmap. split.
  - intros [([k o] & -> & Hin) Hs]. apply elem_of_map_to_list in Hin.
    split; [exists k; exact Hin | exact Hs].
  - intros [[k Hk] Hs]. split; [|exact Hs].
    exists (k, order). split; [reflexivity | apply elem_of_map_to_list, Hk].
Qed.

(** X2.  In every state the service reaches, the pending set and the
    [PENDING] status agree: an order is stored with status [PENDING] exactly
    when its id is in the pending set, so [getOrders('PENDING')] lists
    exactly the orders that the next scan will attempt. *)
Theorem pending_set_matches_pending_status ops order :
  In order (getOrders (run create ops) (Some PENDING))
  <-> In (id order) (pendingOrders (run create ops))
      /\ getOrder (run create ops) (id order) = Some order.
Proof.
  pose proof (run_Sound ops create Sound_create) as [HWF Hconv _ _].
  rewrite getOrders_In. unfold getOrder. split.
  - intros [[k Hk] Hs]. pose proof (wf_ids _ HWF k order Hk) as Hid. subst k.
    split; [exact (Hconv _ _ Hk Hs) | exact Hk].
  - intros [Hin Hk]. split; [eauto|].
    destruct (wf_pending _ HWF _ Hin) as (o & Ho & Hs). congruence.
Qed.

(** X3.  The retry bookkeeping of every stored order, in every state the
    service reaches: [retryCount] lies between 0 and [MAX_RETRIES], the order
    carries one warning per counted retry, and an order is [FAILED] only with
    [retryCount = MAX_RETRIES]. *)
Theorem retry_count_bookkeeping ops orderId order :
  getOrder (run create ops) orderId = Some order ->
  (0 <= retryCount order <= MAX_RETRIES)%Z
  /\ length (warnings order) = Z.to_nat (retryCount order)
  /\ (status order = FAILED -> retryCount order = MAX_RETRIES).
Proof.
  intros H.
  destruct (sd_lifecycle _ (run_Sound ops create Sound_create) orderId order H).
  auto.
Qed.

(** X4.  In every state the service reaches, an order has a fill exactly
    when it is [FILLED], and then a single one: the scan fills an order in
    one execution of its whole amount or not at all. *)
Theorem fills_only_on_filled_orders ops orderId order :
  getOrder (run create ops) orderId = Some order ->
  length (fills order) = if statusEqb (status order) FILLED then 1%nat else 0%nat.
Proof.
  intros H.
  destruct (sd_lifecycle _ (run_Sound ops create Sound_create) orderId order H).
  assumption.
Qed.

(** X5.  [cancelOrder] answers [true] exactly for a stored order that is
    [PENDING]; cancelling the same id again answers [false] and changes
    nothing, whatever the service held before. *)
Theorem cancelOrder_twice st orderId now later :
  let '(st1, first) := cancelOrder st orderId now in
  (first = true <-> exists order, getOrder st orderId = Some order
                                  /\ status order = PENDING)
  /\ (first = false -> st1 = st)
  /\ cancelOrder st1 orderId later = (st1, false).
Proof.
  unfold cancelOrder, getOrder.
  destruct (orders st !! orderId) as [order|] eqn:Hget.
  - destruct (status order) eqn:Hst.
    + destruct (updateOrderStatus_order (removePending st orderId) orderId CANCELLED None
                  now order Hget) as (o & -> & Hs & _).
      simpl. rewrite lookup_insert_eq, Hs. repeat split; eauto. discriminate.
    + rewrite Hget, Hst. repeat split; try discriminate.
      intros (o & Ho & Hs). congruence.
    + rewrite Hget, Hst. repeat split; try discriminate.
      intros (o & Ho & Hs). congruence.
    + rewrite Hget, Hst. repeat split; try discriminate.
      intros (o & Ho & Hs). congruence.
  - rewrite Hget. repeat split; try discriminate.
    intros (o & Ho & _). discriminate.
Qed.

Lemma retry_count_bookkeeping_witness :
  (0 <= retryCount failedOrder <= MAX_RETRIES)%Z
  /\ length (warnings failedOrder) = Z.to_nat (retryCount failedOrder)
  /\ (status failedOrder = FAILED -> retryCount failedOrder = MAX_RETRIES).
Proof.
  apply (retry_count_bookkeeping
           [CreateOrder sampleRequest; failingScan 1; failingScan 2; failingScan 3;
            failingScan 4] "order_1" failedOrder).
  reflexivity.
Defined.

Lemma fills_only_on_filled_orders_witness :
  length (fills filledOrder)
  = if statusEqb (status filledOrder) FILLED then 1%nat else 0%nat.
Proof.
  apply (fills_only_on_filled_orders [CreateOrder sampleRequest; fillingScan 1]
           "order_1" filledOrder).
  reflexivity.
Defined.

Lemma processOrder_Unfilled execute now st k :
  (forall order, execute order = NotExecuted (Some NO_ORDER_BOOK)) ->
  Unfilled st -> Unfilled (processOrder execute now st k).
Proof.
  intros Hex HU. unfold processOrder.
  destruct (orders st !! k) as [order|] eqn:Hget; [|exact HU].
  rewrite Hex. simpl.
  destruct (HU k order Hget) as [Hs Hw].
  destruct (retryCount order >=? MAX_RETRIES)%Z.
  - destruct (updateOrderStatus_order (removePending st k) k FAILED
                (Some (NotExecuted (Some NO_ORDER_BOOK))) now order Hget)
      as (o & -> & Hst & _ & Hwa & _).
    intros j oj Hj. simpl in Hj. destruct (String.eqb_spec k j) as [->|Hne].
    + rewrite lookup_insert_eq in Hj. injection Hj as <-.
      rewrite Hst, Hwa. split; [discriminate | exact Hw].
    + rewrite lookup_insert_ne in Hj by exact Hne. exact (HU j oj Hj).
  - intros j oj Hj. simpl in Hj. destruct (String.eqb_spec k j) as [->|Hne].
    + rewrite lookup_insert_eq in Hj. injection Hj as <-. simpl.
      split; [exact Hs|]. apply Forall_app. split; [exact Hw|].
      constructor; [reflexivity | constructor].
    + rewrite lookup_insert_ne in Hj by exact Hne. exact (HU j oj Hj).
Qed.

Lemma apply_Unfilled st op : runsExecuteOrder op -> Unfilled st -> Unfilled (apply st op).
Proof.
  intros Hop HU. destruct op as [r|execute now|execute now k|k now]; simpl in *.
  - destruct r as [env orderId now mint side type amount price strategy].
    unfold submit. simpl.
    destruct (createOrder_cases st env orderId now mint side type amount price strategy)
      as [->|(_ & stop & take & ->)]; [exact HU|].
    intros j oj Hj. simpl in Hj. destruct (String.eqb_spec orderId j) as [->|Hne].
    + rewrite lookup_insert_eq in Hj. injection Hj as <-. simpl.
      split; [discriminate | constructor].
    + rewrite lookup_insert_ne in Hj by exact Hne. exact (HU j oj Hj).
  - destruct Hop as (env & connection & at_ & ->). unfold processPendingOrders.
    generalize (pendingOrders st) at 1. intros todo. revert st HU.
    induction todo as [|k todo IH]; intros st HU; simpl; [exact HU|].
    apply IH, processOrder_Unfilled; [reflexivity | exact HU].
  - destruct Hop as (env & connection & at_ & ->).
    destruct (setHas k (pendingOrders st)); [|exact HU].
    apply processOrder_Unfilled; [reflexivity | exact HU].
  - unfold cancelOrder. destruct (orders st !! k) as [order|] eqn:Hget; [|exact HU].
    destruct (status order) eqn:Hst; try exact HU. simpl.
    destruct (updateOrderStatus_order (removePending st k) k CANCELLED None now order Hget)
      as (o & -> & Hs & _ & Hwa & _).
    intros j oj Hj. simpl in Hj. destruct (String.eqb_spec k j) as [->|Hne].
    + rewrite lookup_insert_eq in Hj. injection Hj as <-.
      rewrite Hs, Hwa. split; [discriminate | exact (proj2 (HU _ _ Hget))].
    + rewrite lookup_insert_ne in Hj by exact Hne. exact (HU j oj Hj).
Qed.

(** X6.  With [executeOrder] as the source has it, where [getOrderBook] is
    a stub that answers [null], no order is ever filled: whatever is created,
    scanned and cancelled, a stored order is never [FILLED], has no fill, and
    each of its warnings is ["Unable to fetch order book"]. *)
Theorem no_order_is_ever_filled ops orderId order :
  Forall runsExecuteOrder ops ->
  getOrder (run create ops) orderId = Some order ->
  status order <> FILLED /\ fills order = []
  /\ Forall (eq NO_ORDER_BOOK) (warnings order).
Proof.
  intros Hops Hget.
  assert (HU : Unfilled (run create ops)).
  { clear Hget.
    assert (H0 : Unfilled create)
      by (intros k o H; simpl in H; rewrite lookup_empty in H; discriminate).
    revert H0. generalize create. induction Hops as [|op ops Hop _ IH]; intros st H0;
      [exact H0|].
    apply IH, apply_Unfilled; assumption. }
  destruct (HU orderId order Hget) as [Hs Hw].
  pose proof (lc_fills _ (sd_lifecycle _ (run_Sound ops create Sound_create)
                            orderId order Hget)) as Hf.
  split; [exact Hs|]. split; [|exact Hw].
  destruct (status order); try congruence; simpl in Hf;
    destruct (fills order); try reflexivity; discriminate.
Qed.

Lemma no_order_is_ever_filled_witness :
  status failedOrder <> FILLED /\ fills failedOrder = []
  /\ Forall (eq NO_ORDER_BOOK) (warnings failedOrder).
Proof.
  apply (no_order_is_ever_filled
           [CreateOrder sampleRequest; failingScan 1; failingScan 2; failingScan 3;
            failingScan 4] "order_1" failedOrder).
  - repeat constructor; exists sampleEnv, deadConnection; eexists; reflexivity.
  - reflexivity.
Defined.

(** X7.  [checkExecutionConditions] on a [LIMIT] order is monotone in the
    market price: a buy that may execute at some price may execute at every
    lower price that is not 0, a sell at every higher one.  No order of any
    type may execute at price 0, the price [getCurrentPrice] reports when the
    market has none. *)
Theorem limit_order_price_monotone order currentPrice better :
  type order = LIMIT ->
  checkExecutionConditions order currentPrice = true ->
  ~ (better == 0)%Q ->
  match side order with
  | BUY => (better <= currentPrice)%Q
  | SELL => (currentPrice <= better)%Q
  end ->
  checkExecutionConditions order better = true
  /\ checkExecutionConditions order 0 = false.
Proof.
  unfold checkExecutionConditions. intros -> H Hnz Hle. split; [|reflexivity].
  destruct (Qeq_bool currentPrice 0); [discriminate|].
  destruct (Qeq_bool better 0) eqn:Hb; [apply Qeq_bool_iff in Hb; contradiction|].
  destruct (price order) as [limit|]; [|discriminate].
  destruct (Qeq_bool limit 0); [discriminate|].
  destruct (side order); apply Qleb_true in H; apply Qleb_true; lra.
Qed.

Lemma limit_order_price_monotone_witness :
  let order := mkOrder "order_1" "MINT" BUY LIMIT 10 (Some 5%Q) NORMAL PENDING 0 0 []
                       10 0 0 [] None None in
  checkExecutionConditions order 3 = true
  /\ checkExecutionConditions order 0 = false.
Proof.
  apply (limit_order_price_monotone
           (mkOrder "order_1" "MINT" BUY LIMIT 10 (Some 5%Q) NORMAL PENDING 0 0 []
                    10 0 0 [] None None) 4 3).
  - reflexivity.
  - reflexivity.
  - intros H. discriminate H.
  - simpl. unfold Qle. simpl. lia.
Defined.

End OrderBookFacts.

(** ** Sliding window: overlapping callers, memory and progress *)

Module SlidingWindowMore.
Import SlidingWindow SlidingWindowFacts.

(** X8.  Callers that overlap cannot push the limiter over capacity either:
    whatever sequence of executions of the body of [waitForSlot] the callers
    produce, under a clock that does not run backwards, no window of
    [interval] milliseconds holds more than [maxRequests] grants. *)
Theorem overlapping_calls_never_over_capacity (C W start : Z) (readings : list Z)
  (t : Z) :
  nondecreasing start readings ->
  (grantsInWindow W t (bodies readings (create C W)) <= Z.to_nat C)%nat.
Proof.
  intros Hmono.
  exact (bodies_never_over_capacity readings start (create C W) []
           (window_Inv_create C W start) Hmono t).
Qed.

Lemma overlapping_calls_never_over_capacity_witness :
  (grantsInWindow 1000 1000 (bodies [0; 0; 0; 500; 1000]%Z (create 2 1000))
   <= Z.to_nat 2)%nat.
Proof.
  apply (overlapping_calls_never_over_capacity 2 1000 0 [0; 0; 0; 500; 1000] 1000).
  simpl. lia.
Defined.

Lemma stateAfter_config readings : forall rl,
  maxRequests (stateAfter readings rl) = maxRequests rl
  /\ interval (stateAfter readings rl) = interval rl.
Proof.
  induction readings as [|now later IH]; intros rl; simpl; [auto|].
  destruct (IH (fst (trySlot rl now))) as [-> ->]. apply trySlot_config.
Qed.

Lemma stateAfter_length readings : forall rl,
  Z.of_nat (length (timestamps rl)) <= maxRequests rl ->
  Z.of_nat (length (timestamps (stateAfter readings rl))) <= maxRequests rl.
Proof.
  induction readings as [|now later IH]; intros rl Hlen; simpl; [exact Hlen|].
  destruct (trySlot_config rl now) as [Hmax _]. rewrite <- Hmax.
  apply IH. rewrite Hmax. apply trySlot_length, Hlen.
Qed.

(** X9.  The log of timestamps stays within [maxRequests] entries, whatever
    the clock readings, their order included: the limiter holds at most one
    timestamp per permit of a window. *)
Theorem timestamps_log_bounded (C W : Z) (readings : list Z) :
  0 <= C ->
  Z.of_nat (length (timestamps (stateAfter readings (create C W)))) <= C.
Proof. intros HC. apply (stateAfter_length readings (create C W)). simpl. lia. Qed.

Lemma timestamps_log_bounded_witness :
  Z.of_nat (length (timestamps (stateAfter [0; 5; 3; 2000; 1] (create 2 1000)))) <= 2.
Proof. apply (timestamps_log_bounded 2 1000 [0; 5; 3; 2000; 1]). lia. Defined.

(** X10.  A caller that finds a limiter of capacity at least 1 full is told
    a time to wait, and is granted its slot at the first clock reading after
    a sleep of at least that time (no other caller running in between). *)
Theorem waiting_caller_served_after_sleep (C W : Z) (readings : list Z)
  (now next : Z) (later : list Z) :
  1 <= C ->
  snd (trySlot (stateAfter readings (create C W)) now) = false ->
  exists w, waitTime (stateAfter readings (create C W)) now = Some w
    /\ (now + w <= next ->
        exists rl', waitForSlot (now :: next :: later)
                      (stateAfter readings (create C W))
                    = Some (next, later, rl')).
Proof.
  intros HC Hfull.
  set (rl := stateAfter readings (create C W)) in *.
  assert (Hmax : maxRequests rl = C) by apply (stateAfter_config readings (create C W)).
  assert (Hlen : Z.of_nat (length (timestamps rl)) <= maxRequests rl).
  { rewrite Hmax. apply (timestamps_log_bounded C W readings). lia. }
  assert (Hw : exists w, waitTime rl now = Some w).
  { unfold trySlot in Hfull. unfold waitTime.
    destruct (Z.of_nat (length (prune rl now)) >=? maxRequests rl) eqn:Hge;
      [|discriminate].
    rewrite Z.geb_leb in Hge. apply Z.leb_le in Hge.
    destruct (prune rl now); [simpl in Hge; lia | eauto]. }
  destruct Hw as [w Hw]. exists w. split; [exact Hw|].
  intros Hsleep. exact (waitForSlot_after_sleep rl now next later w Hlen Hfull Hw Hsleep).
Qed.

Lemma waiting_caller_served_after_sleep_witness :
  exists w, waitTime (stateAfter [0; 0]%Z (create 2 1000)) 300 = Some w
    /\ (300 + w <= 1000 ->
        exists rl', waitForSlot (300 :: 1000 :: [])
                      (stateAfter [0; 0]%Z (create 2 1000))
                    = Some (1000, [], rl')).
Proof.
  apply (waiting_caller_served_after_sleep 2 1000 [0; 0] 300 1000 []).
  - lia.
  - reflexivity.
Defined.

End SlidingWindowMore.

(** ** Token bucket: the rest of the interface *)

Module TokenBucketMore.
Import TokenBucket TokenBucketFacts.

(** X11.  [getTimeToNextToken] is never negative, is 0 while the bucket
    holds tokens, and never exceeds [Math.ceil(1000 / refillRate)], the time
    [waitForToken] sleeps, when the clock has not run backwards. *)
Theorem getTimeToNextToken_bounds rl now :
  (0 < refillRate rl)%Q -> lastRefill rl <= now ->
  0 <= getTimeToNextToken rl now <= waitTime rl
  /\ ((0 < tokens rl)%Q -> getTimeToNextToken rl now = 0).
Proof.
  intros Hrate Hclock. unfold getTimeToNextToken, waitTime.
  assert (Hpos : 0 <= Qceiling (1000 / refillRate rl)).
  { change 0 with (Qceiling 0). apply Qceiling_resp_le.
    apply Qle_shift_div_l; [exact Hrate | lra]. }
  split.
  - destruct (Qltb 0 (tokens rl)); [lia|].
    split; [lia|]. apply Z.max_lub; [exact Hpos|].
    apply Qceiling_resp_le.
    assert (0 <= inject_Z (now - lastRefill rl))%Q by (rewrite <- (Zle_Qle 0); lia).
    lra.
  - intros Htok. apply Qltb_true in Htok. rewrite Htok. reflexivity.
Qed.

Lemma getTimeToNextToken_bounds_witness :
  0 <= getTimeToNextToken (mkBucket 0 0 2 (1 # 2)) 500 <= waitTime (mkBucket 0 0 2 (1 # 2))
  /\ ((0 < tokens (mkBucket 0 0 2 (1 # 2)))%Q
      -> getTimeToNextToken (mkBucket 0 0 2 (1 # 2)) 500 = 0).
Proof.
  apply (getTimeToNextToken_bounds (mkBucket 0 0 2 (1 # 2)) 500).
  - reflexivity.
  - simpl. lia.
Defined.






End TokenBucketMore.

(** ** Retry with backoff: what a call costs in time *)

Module RetryMore.
Import Retry RetryFacts.






End RetryMore.

(** ** Polling: what is extracted, what is delivered, which program is next *)

Module PollerFacts.
Import Retry Poller.

Section Transfers.

Variable numberToString : Q -> string.

Lemma mapGet_In balances index balance :
  mapGet balances index = Some balance ->
  In balance balances /\ accountIndex balance = index.
Proof.
  unfold mapGet. intros H. apply find_some in H as [Hin Heq].
  split; [apply in_rev, Hin | apply Nat.eqb_eq, Heq].
Qed.

Lemma forEachPostBalance_sound tx signature preBalances allPost postBalances :
  forall transfers,
  (forall postBalance, In postBalance postBalances -> In postBalance allPost) ->
  Forall (Extracted numberToString tx signature preBalances allPost) transfers ->
  Forall (Extracted numberToString tx signature preBalances allPost)
         (forEachPostBalance numberToString tx signature preBalances postBalances
            transfers)
  /\ (length (forEachPostBalance numberToString tx signature preBalances postBalances
                transfers)
      <= length transfers + length postBalances)%nat.
Proof.
  induction postBalances as [|postBalance rest IH]; intros transfers Hsub Hall; simpl.
  - split; [exact Hall | lia].
  - assert (Hrest : forall b, In b rest -> In b allPost)
      by (intros b Hb; apply Hsub; right; exact Hb).
    assert (Hskip : Forall (Extracted numberToString tx signature preBalances allPost)
                      (forEachPostBalance numberToString tx signature preBalances rest
                         transfers)
                    /\ (length (forEachPostBalance numberToString tx signature
                                  preBalances rest transfers)
                        <= length transfers + S (length rest))%nat).
    { destruct (IH transfers Hrest Hall) as [H1 H2]. split; [exact H1 | lia]. }
    destruct (mapGet preBalances (accountIndex postBalance)) as [preBalance|] eqn:Hpre;
      [|exact Hskip].
    destruct (String.eqb (tb_mint postBalance) "") eqn:Hmint; [exact Hskip|].
    destruct (Qeq_bool (amountChange postBalance preBalance) 0) eqn:Hchange;
      [exact Hskip|].
    destruct (nth_error (accountKeys tx) (accountIndex postBalance)) as [key|] eqn:Hkey.
    + apply mapGet_In in Hpre as [Hin Hidx].
      destruct (IH (transfers ++
                    [mkTransfer (tb_mint postBalance) key key
                       (numberToString (amountChange postBalance preBalance))
                       (timestampOf tx) signature]) Hrest) as [H1 H2].
      * apply Forall_app. split; [exact Hall|]. constructor; [|constructor].
        exists postBalance, preBalance. simpl.
        repeat split; auto.
        -- apply Hsub. left. reflexivity.
        -- apply String.eqb_neq, Hmint.
        -- intros H. apply Qeq_bool_iff in H. congruence.
      * split; [exact H1|]. rewrite length_app in H2. simpl in H2. lia.
    + split; [exact Hall | lia].
Qed.

(** X15.  Every transfer that [extractTokenTransfers] reports comes from a
    post-balance with a mint, whose account index also has a pre-balance and
    an account key, and whose amount differs from the pre-balance; the amount
    reported is that difference, the same account is named as sender and as
    receiver, and there are at most as many transfers as post-balances. *)
Theorem extracted_transfers_sound tx signature transfer :
  In transfer (extractTokenTransfers numberToString tx signature) ->
  exists m preBalances postBalances,
    meta tx = Some m
    /\ preTokenBalances m = Some preBalances
    /\ postTokenBalances m = Some postBalances
    /\ Extracted numberToString tx signature preBalances postBalances transfer
    /\ (length (extractTokenTransfers numberToString tx signature)
        <= length postBalances)%nat.
Proof.
  unfold extractTokenTransfers. intros Hin.
  destruct (meta tx) as [m|]; [|contradiction].
  destruct (postTokenBalances m) as [postBalances|] eqn:Hpost; [|contradiction].
  destruct (preTokenBalances m) as [preBalances|] eqn:Hpre; [|contradiction].
  destruct (forEachPostBalance_sound tx signature preBalances postBalances postBalances
              [] (fun _ H => H) (List.Forall_nil _)) as [Hall Hlen].
  exists m, preBalances, postBalances. repeat split; auto.
  rewrite List.Forall_forall in Hall. apply Hall, Hin.
Qed.

Lemma forEachPostBalance_unchanged tx signature preBalances postBalances :
  forall transfers,
  (forall postBalance preBalance,
     In postBalance postBalances ->
     mapGet preBalances (accountIndex postBalance) = Some preBalance ->
     (amountChange postBalance preBalance == 0)%Q) ->
  forEachPostBalance numberToString tx signature preBalances postBalances transfers
  = transfers.
Proof.
  induction postBalances as [|postBalance rest IH]; intros transfers Hsame; simpl;
    [reflexivity|].
  assert (Hrest : forEachPostBalance numberToString tx signature preBalances rest
                    transfers = transfers).
  { apply IH. intros b pre Hb. apply Hsame. right. exact Hb. }
  destruct (mapGet preBalances (accountIndex postBalance)) as [preBalance|] eqn:Hpre;
    [|exact Hrest].
  destruct (String.eqb (tb_mint postBalance) ""); [exact Hrest|].
  assert (H0 : (amountChange postBalance preBalance == 0)%Q)
    by (apply Hsame; [left; reflexivity | exact Hpre]).
  apply Qeq_bool_iff in H0. rewrite H0. exact Hrest.
Qed.

(** X16.  A transaction none of whose token accounts changes its balance
    yields no transfer and is dropped by [processParsedTransaction].  Accounts
    without a pre-balance do not count: a transaction that only opens token
    accounts is dropped as well. *)
Theorem unchanged_balances_are_dropped tx signature m preBalances postBalances :
  meta tx = Some m ->
  preTokenBalances m = Some preBalances ->
  postTokenBalances m = Some postBalances ->
  (forall postBalance preBalance,
     In postBalance postBalances ->
     mapGet preBalances (accountIndex postBalance) = Some preBalance ->
     (amountChange postBalance preBalance == 0)%Q) ->
  extractTokenTransfers numberToString tx signature = []
  /\ processParsedTransaction numberToString tx signature = None.
Proof.
  intros Hm Hpre Hpost Hsame.
  assert (Hnone : extractTokenTransfers numberToString tx signature = []).
  { unfold extractTokenTransfers. rewrite Hm, Hpost, Hpre.
    apply forEachPostBalance_unchanged, Hsame. }
  split; [exact Hnone|]. unfold processParsedTransaction.
  destruct (blockTime tx) as [seconds|]; [|reflexivity].
  destruct (seconds =? 0); [reflexivity|].
  destruct (accountKeys tx); [reflexivity|]. rewrite Hnone. reflexivity.
Qed.

Lemma processParsedTransaction_Reported tx signature data :
  processParsedTransaction numberToString tx signature = Some data ->
  Reported signature data.
Proof.
  unfold processParsedTransaction.
  destruct (blockTime tx) as [seconds|]; [|discriminate].
  destruct (seconds =? 0) eqn:Hs; [discriminate|].
  destruct (accountKeys tx) as [|first keys]; [discriminate|].
  destruct (extractTokenTransfers numberToString tx signature) as [|t ts] eqn:Hext;
    [discriminate|].
  intros H. injection H as <-. unfold Reported. simpl.
  repeat split; try discriminate.
  - apply Z.eqb_neq, Hs.
  - assert (Hall : Forall (fun transfer => toUserAccount transfer = fromUserAccount transfer)
                     (t :: ts)).
    { rewrite <- Hext. apply List.Forall_forall. intros x Hx.
      destruct (extracted_transfers_sound tx signature x Hx)
        as (m & pre & post & _ & _ & _ & HE & _).
      destruct HE as (pb & qb & H). tauto. }
    change (Forall (fun swap => sw_price swap = 0%Q /\ sw_decimals swap = 0
                         /\ sw_toUserAccount swap = sw_fromUserAccount swap)
              (map (fun transfer =>
                      mkSwap (tt_mint transfer) (tt_amount transfer) 0 0
                             (fromUserAccount transfer) (toUserAccount transfer))
                   (t :: ts))).
    apply List.Forall_map. eapply List.Forall_impl; [|exact Hall]. simpl. auto.
Qed.

Lemma fetchTransactions_Reported c signatures :
  Forall (fun data => In (td_signature data) signatures
                      /\ Reported (td_signature data) data)
         (fetchTransactions numberToString c signatures)
  /\ (length (fetchTransactions numberToString c signatures) <= length signatures)%nat.
Proof.
  unfold fetchTransactions.
  assert (H : forall todo acc,
    (forall s, In s todo -> In s signatures) ->
    Forall (fun data => In (td_signature data) signatures
                        /\ Reported (td_signature data) data) acc ->
    Forall (fun data => In (td_signature data) signatures
                        /\ Reported (td_signature data) data)
      (fold_left
         (fun transactions signature =>
            match getParsedTransaction c signature with
            | Resolved (Some tx) =>
                match processParsedTransaction numberToString tx signature with
                | Some processedTx => transactions ++ [processedTx]
                | None => transactions
                end
            | _ => transactions
            end) todo acc)
    /\ (length
          (fold_left
             (fun transactions signature =>
                match getParsedTransaction c signature with
                | Resolved (Some tx) =>
                    match processParsedTransaction numberToString tx signature with
                    | Some processedTx => transactions ++ [processedTx]
                    | None => transactions
                    end
                | _ => transactions
                end) todo acc)
        <= length acc + length todo)%nat).
  { induction todo as [|sig todo IH]; intros acc Hsub Hacc; simpl; [split; [auto|lia]|].
    assert (Hrest : forall s, In s todo -> In s signatures)
      by (intros s Hs; apply Hsub; right; exact Hs).
    destruct (getParsedTransaction c sig) as [[tx|]|e];
      try (destruct (IH acc Hrest Hacc); split; [assumption | lia]).
    destruct (processParsedTransaction numberToString tx sig) as [data|] eqn:Hp;
      try (destruct (IH acc Hrest Hacc); split; [assumption | lia]).
    pose proof (processParsedTransaction_Reported tx sig data Hp) as HR.
    destruct (IH (acc ++ [data]) Hrest) as [H1 H2].
    - apply Forall_app. split; [exact Hacc|]. constructor; [|constructor].
      destruct HR as [Hsig HR']. rewrite Hsig. split.
      + apply Hsub. left. reflexivity.
      + split; [exact Hsig | exact HR'].
    - split; [exact H1|]. rewrite length_app in H2. simpl in H2. lia. }
  destruct (H signatures [] (fun _ Hs => Hs) (List.Forall_nil _)) as [H1 H2].
  split; [exact H1 | simpl in H2; lia].
Qed.

(** X17.  The callback of [processNewTransactions] is only ever called with
    a batch that is not empty, holds at most one entry per signature fetched,
    and whose entries each carry a signature of the fetch, a block time and at
    least one token transfer. *)
Theorem callback_receives_reported_swaps p c p' batch :
  processNewTransactions numberToString p c = (p', Some batch) ->
  exists currentSlot signatures,
    getSlot c = Resolved currentSlot
    /\ getSignaturesForAddress c (currentRaydiumIndex p) = Resolved signatures
    /\ batch <> []
    /\ (length batch <= length signatures)%nat
    /\ Forall (fun data => In (td_signature data) signatures
                           /\ td_blockTime data <> 0
                           /\ tokenTransfers data <> []) batch.
Proof.
  unfold processNewTransactions.
  destruct (isProcessing p); [discriminate|].
  destruct (getSlot c) as [currentSlot|e]; [|discriminate].
  destruct (getSignaturesForAddress c (currentRaydiumIndex p)) as [signatures|e];
    [|discriminate].
  destruct signatures as [|sig rest]; [discriminate|].
  destruct (fetchTransactions_Reported c (sig :: rest)) as [Hall Hlen].
  destruct (fetchTransactions numberToString c (sig :: rest)) as [|data more] eqn:Hf;
    [discriminate|].
  intros H.
  assert (batch = data :: more).
  { destruct (callback c (data :: more)); injection H as _ <-; reflexivity. }
  subst batch. exists currentSlot, (sig :: rest).
  repeat split; try assumption; try discriminate.
  eapply List.Forall_impl; [|exact Hall]. unfold Reported. simpl. tauto.
Qed.

Lemma processNewTransactions_index p c :
  isProcessing p = false -> (currentRaydiumIndex p < PROGRAMS)%nat ->
  let p' := fst (processNewTransactions numberToString p c) in
  isProcessing p' = false
  /\ (currentRaydiumIndex p' < PROGRAMS)%nat
  /\ currentRaydiumIndex p'
     = if completes numberToString c (currentRaydiumIndex p)
       then ((currentRaydiumIndex p + 1) mod PROGRAMS)%nat
       else currentRaydiumIndex p.
Proof.
  intros Hidle Hidx. cbn zeta. unfold processNewTransactions, completes.
  rewrite Hidle.
  assert (Hnext : (nextIndex p < PROGRAMS)%nat)
    by (apply Nat.mod_upper_bound; discriminate).
  destruct (getSlot c) as [currentSlot|e]; [|simpl; auto].
  destruct (getSignaturesForAddress c (currentRaydiumIndex p)) as [signatures|e];
    [|simpl; auto].
  destruct signatures as [|sig rest]; [simpl; auto|].
  destruct (fetchTransactions numberToString c (sig :: rest)) as [|data more];
    [simpl; auto|].
  destruct (callback c (data :: more)); simpl; auto.
Qed.

(** X18.  The programs are polled in turn.  After any sequence of calls
    [isProcessing] is clear again, and the index of the program to poll next
    is the number of calls that ran to their end, modulo the number of
    programs: a call that fails (a query that throws after its retries, or a
    callback that throws) leaves the index where it was, so the same program
    is polled again. *)
Theorem programs_polled_round_robin (cycles : list Cycle) :
  isProcessing (run numberToString create cycles) = false
  /\ currentRaydiumIndex (run numberToString create cycles)
     = (completed numberToString create cycles mod PROGRAMS)%nat.
Proof.
  assert (H : forall p, isProcessing p = false -> (currentRaydiumIndex p < PROGRAMS)%nat ->
    isProcessing (run numberToString p cycles) = false
    /\ currentRaydiumIndex (run numberToString p cycles)
       = ((currentRaydiumIndex p + completed numberToString p cycles) mod PROGRAMS)%nat).
  { induction cycles as [|c rest IH]; intros p Hidle Hidx;
      unfold run in *; cbn [fold_left completed].
    - split; [exact Hidle|]. rewrite Nat.add_0_r, Nat.mod_small; auto.
    - destruct (processNewTransactions_index p c Hidle Hidx) as (Hidle' & Hidx' & Hstep).
      destruct (IH _ Hidle' Hidx') as [H1 H2].
      split; [exact H1|]. rewrite H2, Hstep.
      destruct (completes numberToString c (currentRaydiumIndex p)).
      + rewrite Nat.Div0.add_mod_idemp_l. f_equal. lia.
      + reflexivity. }
  destruct (H create eq_refl) as [H1 H2]; [unfold PROGRAMS; simpl; lia|].
  split; [exact H1 | exact H2].
Qed.

End Transfers.

Lemma extracted_transfers_sound_witness :
  exists m preBalances postBalances,
    meta sampleTransaction = Some m
    /\ preTokenBalances m = Some preBalances
    /\ postTokenBalances m = Some postBalances
    /\ Extracted Risk.showWhole sampleTransaction "sig_1" preBalances postBalances
         (mkTransfer "MINT" "alice" "alice" (Risk.showWhole 5) (Some 1700000000000)
                     "sig_1")
    /\ (length (extractTokenTransfers Risk.showWhole sampleTransaction "sig_1")
        <= length postBalances)%nat.
Proof.
  apply (extracted_transfers_sound Risk.showWhole sampleTransaction "sig_1"
           (mkTransfer "MINT" "alice" "alice" (Risk.showWhole 5) (Some 1700000000000)
                       "sig_1")).
  left. reflexivity.
Defined.

Lemma unchanged_balances_are_dropped_witness :
  extractTokenTransfers Risk.showWhole openingTransaction "sig_2" = []
  /\ processParsedTransaction Risk.showWhole openingTransaction "sig_2" = None.
Proof.
  apply (unchanged_balances_are_dropped Risk.showWhole openingTransaction "sig_2"
           (mkMeta (Some []) (Some [mkBalance 1 "MINT" (Some 4%Q)]))
           [] [mkBalance 1 "MINT" (Some 4%Q)]).
  - reflexivity.
  - reflexivity.
  - reflexivity.
  - intros postBalance preBalance _ H. discriminate H.
Defined.

Lemma callback_receives_reported_swaps_witness :
  let batch := fetchTransactions Risk.showWhole sampleCycle ["sig_1"; "sig_2"]%string in
  exists currentSlot signatures,
    getSlot sampleCycle = Resolved currentSlot
    /\ getSignaturesForAddress sampleCycle (currentRaydiumIndex create)
       = Resolved signatures
    /\ batch <> []
    /\ (length batch <= length signatures)%nat
    /\ Forall (fun data => In (td_signature data) signatures
                           /\ td_blockTime data <> 0
                           /\ tokenTransfers data <> []) batch.
Proof.
  apply (callback_receives_reported_swaps Risk.showWhole create sampleCycle
           (mkPoller 100 false 1)
           (fetchTransactions Risk.showWhole sampleCycle ["sig_1"; "sig_2"]%string)).
  reflexivity.
Defined.

Example two_calls_one_failing :
  run Risk.showWhole create [sampleCycle; failingCycle; failingCycle]
  = mkPoller 100 false 1.
Proof. reflexivity. Qed.

End PollerFacts.

(** ** Risk management: the books of the day, decisions and monitoring *)

Module RiskMore.
Import Risk RiskFacts.
Local Open Scope Q_scope.

Lemma updateDailyStats_short stats mint :
  (length (tradesOf stats mint) < 2)%nat -> updateDailyStats stats mint = stats.
Proof.
  intros H. unfold updateDailyStats. apply Nat.ltb_lt in H. rewrite H. reflexivity.
Qed.

(** [updateDailyStats] on a ledger that ends with [previousTrade; lastTrade] *)
Lemma updateDailyStats_two stats mint front previousTrade lastTrade :
  tradesOf stats mint = front ++ [previousTrade; lastTrade] ->
  updateDailyStats stats mint
  = let pnl := (t_price lastTrade - t_price previousTrade) * t_amount lastTrade in
    let closing := isSell (t_type lastTrade) && isBuy (t_type previousTrade) in
    mkDailyStats
      (if closing && negb (Qltb 0 pnl) then totalLoss stats + Qabs pnl
       else totalLoss stats)
      (if closing && Qltb 0 pnl then totalProfit stats + pnl else totalProfit stats)
      (tradeCount stats + 1)%Z (lastReset stats) (trades stats).
Proof.
  intros Hl. unfold updateDailyStats. rewrite Hl, length_app. simpl length.
  replace (length front + 2 <? 2)%nat with false
    by (symmetry; apply Nat.ltb_ge; lia).
  replace (length front + 2 - 1)%nat with (length front + 1)%nat by lia.
  replace (length front + 2 - 2)%nat with (length front + 0)%nat by lia.
  rewrite !lookup_app_r by lia.
  replace (length front + 1 - length front)%nat with 1%nat by lia.
  replace (length front + 0 - length front)%nat with 0%nat by lia.
  simpl. destruct (isSell (t_type lastTrade) && isBuy (t_type previousTrade)); simpl;
    [destruct (Qltb 0 _); simpl|]; destruct stats; reflexivity.
Qed.

Lemma ledger_end (l : list Trade) :
  (2 <= length l)%nat -> exists front a b, l = front ++ [a; b].
Proof.
  intros H. destruct (rev l) as [|b [|a r]] eqn:Hr.
  - apply (f_equal (@length _)) in Hr. rewrite length_rev in Hr. simpl in Hr. lia.
  - apply (f_equal (@length _)) in Hr. rewrite length_rev in Hr. simpl in Hr. lia.
  - exists (rev r), a, b. rewrite <- (rev_involutive l), Hr. simpl.
    rewrite <- app_assoc. reflexivity.
Qed.

Lemma updateDailyStats_totals stats mint :
  0 <= totalLoss stats -> 0 <= totalProfit stats ->
  totalLoss stats <= totalLoss (updateDailyStats stats mint)
  /\ totalProfit stats <= totalProfit (updateDailyStats stats mint).
Proof.
  intros Hl Hp.
  destruct (Nat.lt_ge_cases (length (tradesOf stats mint)) 2) as [Hshort|Hlong].
  - rewrite updateDailyStats_short by exact Hshort. split; lra.
  - destruct (ledger_end _ Hlong) as (front & a & b & Heq).
    rewrite (updateDailyStats_two stats mint front a b Heq).
    cbn [totalLoss totalProfit].
    set (pnl := (t_price b - t_price a) * t_amount b).
    pose proof (Qabs_nonneg pnl).
    destruct (isSell (t_type b) && isBuy (t_type a)); cbn [andb negb]; [|split; lra].
    destruct (Qltb 0 pnl) eqn:E; cbn [negb].
    + apply Qltb_true in E. split; lra.
    + split; lra.
Qed.

Lemma recordedTrades_insert_None mint ledger (m : gmap string (list Trade)) :
  m !! mint = None ->
  map_fold (fun _ l n => (length l + n)%nat) 0%nat (<[mint := ledger]> m)
  = (length ledger + map_fold (fun _ l n => (length l + n)%nat) 0%nat m)%nat.
Proof.
  intros H. apply (map_fold_insert_L (fun _ l n => (length l + n)%nat)); [|exact H].
  intros. lia.
Qed.

Lemma recordedTrades_lookup (m : gmap string (list Trade)) mint old :
  m !! mint = Some old ->
  map_fold (fun _ l n => (length l + n)%nat) 0%nat m
  = (length old
     + map_fold (fun _ l n => (length l + n)%nat) 0%nat (delete mint m))%nat.
Proof.
  intros H. apply (map_fold_delete_L (fun _ l n => (length l + n)%nat)); [|exact H].
  intros. lia.
Qed.

Lemma Books_empty now : Books (emptyDailyStats now).
Proof.
  constructor; simpl; try lra.
  - intros mint ledger H. rewrite lookup_empty in H. discriminate.
  - unfold recordedTrades. simpl. rewrite map_size_empty, map_fold_empty. reflexivity.
Qed.

Lemma updatePosition_Books st market mint amount price type now :
  Books (dailyStats st) ->
  Books (dailyStats (updatePosition st market mint amount price type now)).
Proof.
  intros [Hl Hp Hne Hc]. unfold updatePosition. cbn [dailyStats].
  set (t := mkTrade amount price now type).
  set (stats1 := mkDailyStats _ _ _ _ _).
  assert (Hledger : tradesOf stats1 mint = tradesOf (dailyStats st) mint ++ [t]).
  { unfold tradesOf, stats1. simpl. rewrite lookup_insert_eq. reflexivity. }
  destruct (updateDailyStats_tradeCount stats1 mint) as [Hcount Htrades].
  destruct (updateDailyStats_totals stats1 mint Hl Hp) as [Hl' Hp'].
  constructor.
  - simpl in Hl'. lra.
  - simpl in Hp'. lra.
  - rewrite Htrades. simpl. intros k ledger Hk.
    destruct (String.eqb_spec mint k) as [->|Hneq].
    + rewrite lookup_insert_eq in Hk. injection Hk as <-.
      intros H. apply app_eq_nil in H as [_ H]. discriminate.
    + rewrite lookup_insert_ne in Hk by exact Hneq. exact (Hne k ledger Hk).
  - rewrite Hcount, Hledger. unfold recordedTrades. rewrite Htrades.
    subst stats1. cbn [tradeCount trades].
    unfold recordedTrades in Hc. unfold tradesOf.
    destruct (trades (dailyStats st) !! mint) as [old|] eqn:Hold; cbn [default from_option id]; unfold id.
    + assert (old <> []) by exact (Hne mint old Hold).
      rewrite length_app. cbn [length].
      replace (2 <=? length old + 1)%nat with true
        by (symmetry; apply Nat.leb_le; destruct old; [congruence | simpl; lia]).
      rewrite map_size_insert_Some by eauto.
      rewrite <- (insert_delete_eq (trades (dailyStats st))).
      rewrite recordedTrades_insert_None by apply lookup_delete_eq.
      rewrite (recordedTrades_lookup _ mint old Hold) in Hc.
      rewrite length_app. cbn [length]. lia.
    + rewrite map_size_insert_None by exact Hold.
      rewrite recordedTrades_insert_None by exact Hold. simpl. lia.
Qed.

Lemma handle_Books st e : Books (dailyStats st) -> Books (dailyStats (handle st e)).
Proof.
  intros H. destruct e; cbn [handle].
  - apply updatePosition_Books; exact H.
  - apply Books_empty.
  - exact H.
  - exact H.
Qed.

(** X19.  The daily statistics in every state the service reaches, through
    any sequence of [updatePosition], daily resets, profile changes and
    position checks: [totalLoss] and [totalProfit] are never negative, and
    [tradeCount] is the number of trades recorded in the ledgers of the day
    minus the number of mints traded, the first trade of each mint not being
    counted. *)
Theorem daily_books_balance maxDailyTrades now events :
  let stats := dailyStats (run (create maxDailyTrades now) events) in
  0 <= totalLoss stats /\ 0 <= totalProfit stats
  /\ (tradeCount stats + Z.of_nat (size (trades stats)))%Z
     = Z.of_nat (recordedTrades stats).
Proof.
  cbn zeta.
  assert (H : Books (dailyStats (run (create maxDailyTrades now) events))).
  { unfold run. generalize (Books_empty now).
    change (emptyDailyStats now) with (dailyStats (create maxDailyTrades now)).
    generalize (create maxDailyTrades now).
    induction events as [|e rest IH]; intros st H; simpl; [exact H|].
    apply IH, handle_Books, H. }
  destruct H. auto.
Qed.

Lemma updatePosition_stats st market mint amount price type now :
  let stats1 :=
    mkDailyStats (totalLoss (dailyStats st)) (totalProfit (dailyStats st))
                 (tradeCount (dailyStats st)) (lastReset (dailyStats st))
                 (<[mint := tradesOf (dailyStats st) mint ++ [mkTrade amount price now type]]>
                    (trades (dailyStats st))) in
  dailyStats (updatePosition st market mint amount price type now)
  = updateDailyStats stats1 mint
  /\ tradesOf stats1 mint
     = tradesOf (dailyStats st) mint ++ [mkTrade amount price now type]
  /\ tradesOf (dailyStats (updatePosition st market mint amount price type now)) mint
     = tradesOf (dailyStats st) mint ++ [mkTrade amount price now type].
Proof.
  cbn zeta. split; [reflexivity|].
  assert (H : forall trades0 : gmap string (list Trade), forall l,
            default [] (<[mint := l]> trades0 !! mint) = l)
    by (intros; rewrite lookup_insert_eq; reflexivity).
  split; [apply H|].
  unfold updatePosition. cbn [dailyStats]. unfold tradesOf at 1.
  rewrite (proj2 (updateDailyStats_tradeCount _ mint)). apply H.
Qed.

(** X20.  Buying a mint and then selling it books the result of the round
    trip: the buy leaves [netPnL] as it was, the sell changes it by
    [(sellPrice - buyPrice) * sold], the amount sold, whatever was bought, and
    the position of the mint is closed. *)
Theorem round_trip_books_its_pnl st market market' mint bought buyPrice sold sellPrice
  t1 t2 :
  let st1 := updatePosition st market mint bought buyPrice buy t1 in
  let st2 := updatePosition st1 market' mint sold sellPrice sell t2 in
  netPnL st1 == netPnL st
  /\ netPnL st2 == netPnL st + (sellPrice - buyPrice) * sold
  /\ getPositionRisk st2 mint = None.
Proof.
  cbn zeta.
  set (st1 := updatePosition st market mint bought buyPrice buy t1).
  destruct (updatePosition_stats st market mint bought buyPrice buy t1)
    as (Hstats1 & Hledger0 & Hledger1).
  fold st1 in Hstats1, Hledger1. cbn zeta in Hstats1, Hledger0.
  set (stats0 := mkDailyStats _ _ _ _ _) in Hstats1, Hledger0.
  assert (Htotals1 : totalLoss (dailyStats st1) = totalLoss (dailyStats st)
                     /\ totalProfit (dailyStats st1) = totalProfit (dailyStats st)).
  { rewrite Hstats1.
    destruct (Nat.lt_ge_cases (length (tradesOf stats0 mint)) 2) as [Hshort|Hlong].
    - rewrite updateDailyStats_short by exact Hshort. split; reflexivity.
    - destruct (ledger_end _ Hlong) as (front & a & b & Heq).
      rewrite (updateDailyStats_two stats0 mint front a b Heq).
      assert (Hb : b = mkTrade bought buyPrice t1 buy).
      { rewrite Hledger0 in Heq.
        change (front ++ [a; b]) with (front ++ [a] ++ [b]) in Heq.
        rewrite app_assoc in Heq. apply app_inj_tail in Heq as [_ Heq]. congruence. }
      subst b. split; reflexivity. }
  destruct Htotals1 as [Hloss1 Hprofit1].
  split; [unfold netPnL; rewrite Hloss1, Hprofit1; reflexivity|].
  destruct (updatePosition_stats st1 market' mint sold sellPrice sell t2)
    as (Hstats2 & Hledger2 & _).
  cbn zeta in Hstats2, Hledger2.
  set (stats1 := mkDailyStats _ _ _ _ _) in Hstats2, Hledger2.
  rewrite Hledger1, <- app_assoc in Hledger2. simpl in Hledger2.
  split.
  - unfold netPnL. rewrite Hstats2.
    rewrite (updateDailyStats_two stats1 mint _ _ _ Hledger2).
    cbn [totalLoss totalProfit stats1 t_price t_amount t_type isSell isBuy andb].
    rewrite Hloss1, Hprofit1.
    set (pnl := (sellPrice - buyPrice) * sold).
    destruct (Qltb 0 pnl) eqn:E; cbn [negb].
    + ring.
    + apply Qltb_false in E. rewrite (Qabs_neg pnl E). ring.
  - unfold getPositionRisk, updatePosition. cbn [positionRisks].
    apply lookup_delete_eq.
Qed.

Lemma Qdiv_nonneg x y : 0 <= x -> 0 < y -> 0 <= x / y.
Proof. intros Hx Hy. apply Qle_shift_div_l; [exact Hy | lra]. Qed.

Lemma Qmin_unit x : 0 <= x -> 0 <= Qmin x 1 <= 1.
Proof. intros H. split; [apply Q.min_glb; lra | apply Q.le_min_r]. Qed.

Lemma Qmax_unit x : x <= 1 -> 0 <= Qmax 0 x <= 1.
Proof. intros H. split; [apply Q.le_max_l | apply Q.max_lub; lra]. Qed.

Lemma calculateRiskScore_unit metrics amount price portfolioValue :
  0 <= amount -> 0 <= price -> 0 < portfolioValue ->
  0 < liquidity metrics -> 0 <= volume24h metrics ->
  0 <= calculateRiskScore metrics amount price portfolioValue <= 1.
Proof.
  intros Ha Hp Hv Hl Hvol. unfold calculateRiskScore. cbn zeta.
  assert (Hap : 0 <= amount * price) by (apply Qmult_le_0_compat; assumption).
  assert (H1 : 0 <= amount * price / portfolioValue * 100 / 10).
  { apply Qdiv_nonneg; [|lra].
    pose proof (Qdiv_nonneg _ _ Hap Hv). lra. }
  assert (H2 : 0 <= amount * price / liquidity metrics * 2).
  { pose proof (Qdiv_nonneg _ _ Hap Hl). lra. }
  assert (H3 : 1 - volume24h metrics / 1000000 <= 1).
  { assert (0 <= volume24h metrics / 1000000) by (apply Qdiv_nonneg; lra). lra. }
  assert (H4 : 0 <= Qabs (priceChange24h metrics) / 50).
  { apply Qdiv_nonneg; [apply Qabs_nonneg | lra]. }
  pose proof (Qmin_unit _ H1). pose proof (Qmin_unit _ H2).
  pose proof (Qmax_unit _ H3). pose proof (Qmin_unit _ H4).
  set (s1 := Qmin _ 1) in *. set (s2 := Qmin _ 1) in *.
  set (s3 := Qmax 0 _) in *. set (s4 := Qmin _ 1) in *.
  split; lra.
Qed.

Section Decisions.

Variable numberToString : Q -> string.

(** X21.  The risk score of every decision of [evaluateTradeRisk] lies
    between 0 and 1, for a trade of non-negative amount and price against a
    positive portfolio value, when the token analysed has positive liquidity
    and a non-negative volume. *)
Theorem decision_risk_score_in_unit_interval st market mint amount price
  portfolioValue riskProfile now :
  0 <= amount -> 0 <= price -> 0 < portfolioValue ->
  (forall metrics, analyzeToken market mint = Some metrics ->
                   0 < liquidity metrics /\ 0 <= volume24h metrics) ->
  0 <= riskScore (evaluateTradeRisk numberToString st market mint amount price
                    portfolioValue riskProfile now) <= 1.
Proof.
  intros Ha Hp Hv Hm. unfold evaluateTradeRisk.
  destruct (_ >=? _)%Z; [simpl; lra|].
  destruct (Qltb _ _); [simpl; lra|].
  destruct (analyzeToken market mint) as [metrics|] eqn:Htok; [|simpl; lra].
  destruct (Hm metrics eq_refl) as [Hl Hvol]. cbn [riskScore].
  apply calculateRiskScore_unit; assumption.
Qed.

Lemma approved_iff st market mint amount price portfolioValue
  riskProfile now :
  let decision := evaluateTradeRisk numberToString st market mint amount price
                    portfolioValue riskProfile now in
  let profile := getRiskProfile st riskProfile in
  approved decision = true <->
  (tradeCount (dailyStats st) < maxDailyTrades st)%Z
  /\ totalLoss (dailyStats st) <= portfolioValue * maxDailyLoss profile / 100
  /\ exists metrics,
       analyzeToken market mint = Some metrics
       /\ amount <= portfolioValue * maxPositionSize profile / 100
       /\ calculateRiskScore metrics amount price portfolioValue <= 0.8
       /\ amount * price * 2 <= liquidity metrics
       /\ (countOpenPositions st < maxOpenPositions profile)%Z.
Proof.
  cbn zeta. unfold evaluateTradeRisk, getRiskProfile.
  set (profile := default DEFAULT_RISK_PROFILE (riskProfiles st !! riskProfile)).
  destruct (tradeCount (dailyStats st) >=? maxDailyTrades st)%Z eqn:Hcount.
  { rewrite Z.geb_leb in Hcount. apply Z.leb_le in Hcount. simpl.
    split; [discriminate | intros [H _]; lia]. }
  rewrite Z.geb_leb in Hcount. apply Z.leb_gt in Hcount.
  destruct (Qltb (portfolioValue * maxDailyLoss profile / 100) (totalLoss (dailyStats st)))
    eqn:Hloss.
  { apply Qltb_true in Hloss. simpl.
    split; [discriminate | intros (_ & H & _); lra]. }
  apply Qltb_false in Hloss.
  destruct (analyzeToken market mint) as [metrics|] eqn:Htok.
  2:{ simpl. split; [discriminate | intros (_ & _ & m & H & _); discriminate]. }
  cbn [approved].
  destruct (Qltb (portfolioValue * maxPositionSize profile / 100) amount) eqn:H1;
  destruct (Qltb 0.8 (calculateRiskScore metrics amount price portfolioValue)) eqn:H2;
  destruct (Qltb (liquidity metrics) (amount * price * 2)) eqn:H3;
  destruct (countOpenPositions st >=? maxOpenPositions profile)%Z eqn:H4;
  cbn [fst snd reject];
  rewrite ?Qltb_true, ?Qltb_false in *;
  rewrite Z.geb_leb in H4;
  try apply Z.leb_le in H4; try apply Z.leb_gt in H4;
  (split;
   [ first [ discriminate
           | intros _; split; [exact Hcount|]; split; [exact Hloss|];
             exists metrics; repeat split; assumption ]
   | intros (_ & _ & m & Hm & G1 & G2 & G3 & G4);
     injection Hm as <-; try reflexivity; try lra; try lia ]).
Qed.


End Decisions.

Lemma decision_risk_score_in_unit_interval_witness :
  0 <= riskScore (evaluateTradeRisk showWhole (create 50 0) calmMarket "MINT" 10 1 1000
                    "default" 0) <= 1.
Proof.
  apply (decision_risk_score_in_unit_interval showWhole (create 50 0) calmMarket "MINT"
           10 1 1000 "default" 0).
  - unfold Qle. simpl. lia.
  - unfold Qle. simpl. lia.
  - reflexivity.
  - intros metrics H. injection H as <-. split; [reflexivity | unfold Qle; simpl; lia].
Defined.




(** X24.  [checkAllPositions] opens and closes nothing: statistics and
    profiles are untouched, a mint without position has none afterwards, and
    a position keeps its mint, [maxLoss], [exposure] and [liquidationPrice];
    it is either left as it was (no price available) or carries one of the
    four outcomes maintain/low, reduce/medium, reduce/high and close/high. *)
Theorem position_check_keeps_positions st market getCurrentPrice now mint :
  let st' := checkAllPositions st market getCurrentPrice now in
  dailyStats st' = dailyStats st /\ riskProfiles st' = riskProfiles st
  /\ match getPositionRisk st mint with
     | None => getPositionRisk st' mint = None
     | Some position =>
         exists position',
           getPositionRisk st' mint = Some position'
           /\ pr_mint position' = pr_mint position
           /\ maxLoss position' = maxLoss position
           /\ exposure position' = exposure position
           /\ liquidationPrice position' = liquidationPrice position
           /\ (position' = position
               \/ In (recommendation position', warningLevel position')
                     [(maintain, low); (reduce, medium); (reduce, high); (close, high)])
     end.
Proof.
  cbn zeta. split; [reflexivity|]. split; [reflexivity|].
  unfold getPositionRisk, checkAllPositions. cbn [positionRisks].
  rewrite map_lookup_imap.
  destruct (positionRisks st !! mint) as [position|]; [|reflexivity].
  cbn [mbind option_bind]. eexists. split; [reflexivity|].
  unfold checkPosition.
  destruct (getCurrentPrice mint) as [currentPrice|]; [|repeat split; auto].
  destruct (Qeq_bool currentPrice 0); [repeat split; auto|].
  cbn [pr_mint maxLoss exposure liquidationPrice recommendation warningLevel].
  repeat split. right.
  destruct (Qltb _ (- maxLoss position)); [simpl; auto|].
  destruct (Qltb 0.8 _); [simpl; auto|].
  destruct (_ >? _)%Z; simpl; auto.
Qed.


End RiskMore.

(** ** Market analysis: figures in range, history bounded *)

Module MarketFacts.
Import Market.
Local Open Scope Q_scope.




Lemma skipn_Forall {A} (P : A -> Prop) k (l : list A) :
  List.Forall P l -> List.Forall P (skipn k l).
Proof.
  intros H. rewrite <- (firstn_skipn k l) in H. apply List.Forall_app in H. tauto.
Qed.

(** X26.  [updatePriceHistory] keeps the history bounded: with a
    [maxPriceHistoryLength] of at least 1 the stored history holds at most
    that many entries, all of them less than a day old, and ends with the
    price just recorded. *)
Theorem price_history_stays_bounded (maxLength : nat) (history : list PricePoint)
  (currentPrice : Q) (now : Z) :
  (1 <= maxLength)%nat ->
  let history' := updatePriceHistory maxLength history currentPrice now in
  (length history' <= maxLength)%nat
  /\ List.Forall (fun entry => (now - DAY < pp_timestamp entry)%Z) history'
  /\ list.last history' = Some (mkPoint currentPrice now).
Proof.
  intros Hmax. cbn zeta. unfold updatePriceHistory, sliceLast.
  replace (Nat.eqb maxLength 0) with false by (symmetry; apply Nat.eqb_neq; lia).
  rewrite List.filter_app. simpl.
  replace (now >? now - DAY)%Z with true
    by (symmetry; apply Z.gtb_lt; unfold DAY; lia).
  set (kept := List.filter _ history).
  split; [|split].
  - rewrite length_skipn. lia.
  - apply skipn_Forall. apply List.Forall_app. split.
    + apply List.Forall_forall. intros x Hx. apply filter_In in Hx as [_ Hx].
      apply Z.gtb_lt in Hx. exact Hx.
    + constructor; [simpl; unfold DAY; lia | constructor].
  - rewrite length_app. simpl.
    rewrite skipn_app.
    replace (length kept + 1 - maxLength - length kept)%nat with 0%nat by lia.
    simpl. apply last_snoc.
Qed.


Lemma price_history_stays_bounded_witness :
  let history' := updatePriceHistory 2 sampleHistory 11 120000000 in
  (length history' <= 2)%nat
  /\ List.Forall (fun entry => (120000000 - DAY < pp_timestamp entry)%Z) history'
  /\ list.last history' = Some (mkPoint 11 120000000).
Proof.
  apply (price_history_stays_bounded 2 sampleHistory 11 120000000). lia.
Defined.

End MarketFacts.

(** ** Sentiment: normalised *)

Module SentimentFacts.
Import Sentiment.
Local Open Scope Q_scope.

Lemma analyzeTextSentiment_sign words :
  analyzeTextSentiment words == -1 \/ analyzeTextSentiment words == 0
  \/ analyzeTextSentiment words == 1.
Proof.
  unfold analyzeTextSentiment. set (score := wordScore words).
  destruct (score =? 0)%Z eqn:E; [right; left; reflexivity|].
  apply Z.eqb_neq in E.
  destruct (Z.abs_spec score) as [[Hs ->]|[Hs ->]].
  - right. right. field. intros H. apply E.
    apply (proj1 (inject_Z_injective score 0)). exact H.
  - left. rewrite inject_Z_opp. field. intros H. apply E.
    apply (proj1 (inject_Z_injective score 0)). exact H.
Qed.

Lemma calculateTweetWeight_positive tweet :
  counted tweet -> 1 <= calculateTweetWeight (public_metrics tweet).
Proof. intros (H1 & H2 & H3 & H4). unfold calculateTweetWeight. lra. Qed.

Lemma totals_range tweets : forall sums,
  List.Forall counted tweets ->
  0 <= snd sums -> - snd sums <= fst sums <= snd sums ->
  let sums' := fold_left (fun sums tweet =>
                 let weight := calculateTweetWeight (public_metrics tweet) in
                 let textSentiment := analyzeTextSentiment (words tweet) in
                 (fst sums + textSentiment * weight, snd sums + weight))
               tweets sums in
  0 <= snd sums' /\ - snd sums' <= fst sums' <= snd sums'
  /\ (tweets <> [] -> 0 < snd sums').
Proof.
  induction tweets as [|tweet rest IH]; intros sums Hall Hw Hs; cbn zeta; simpl.
  - split; [exact Hw|]. split; [exact Hs | congruence].
  - inversion Hall as [|? ? Hc Hrest]; subst.
    pose proof (calculateTweetWeight_positive tweet Hc) as Hweight.
    set (w := calculateTweetWeight (public_metrics tweet)) in *.
    set (t := analyzeTextSentiment (words tweet)).
    assert (Ht : - w <= t * w <= w).
    { destruct (analyzeTextSentiment_sign (words tweet)) as [H|[H|H]];
        fold t in H; rewrite H; split; lra. }
    destruct (IH (fst sums + t * w, snd sums + w) Hrest) as (H1 & H2 & H3);
      [simpl; lra | simpl; lra |].
    cbn zeta in H1, H2, H3. split; [exact H1|]. split; [exact H2|].
    intros _. destruct rest as [|next rest'].
    + simpl. lra.
    + apply H3. discriminate.
Qed.

(** X27.  [analyzeSentiment] is normalised: for tweets whose interaction
    counts are not negative the sentiment lies between -1 and 1, every tweet
    contributing -1, 0 or 1 with a weight of at least 1. *)
Theorem sentiment_is_normalised tweets :
  List.Forall counted tweets -> -1 <= analyzeSentiment tweets <= 1.
Proof.
  intros Hall. unfold analyzeSentiment.
  destruct tweets as [|tweet rest]; [split; lra|].
  set (l := tweet :: rest) in *.
  destruct (totals_range l (0, 0) Hall) as (Hw & Hs & Hpos);
    [simpl; lra | simpl; lra |].
  cbn zeta in Hw, Hs, Hpos. fold (totals l) in Hw, Hs, Hpos.
  destruct (totals l) as [totalScore totalWeight]. simpl in Hw, Hs, Hpos.
  destruct (Qltb 0 totalWeight) eqn:E; [|split; lra].
  apply Qltb_true in E. split.
  - apply Qle_shift_div_l; [exact E | lra].
  - apply Qle_shift_div_r; [exact E | lra].
Qed.

Lemma sentiment_is_normalised_witness : -1 <= analyzeSentiment sampleTweets <= 1.
Proof.
  apply (sentiment_is_normalised sampleTweets).
  unfold sampleTweets, counted.
  repeat (constructor; [simpl; repeat split; unfold Qle; simpl; lia|]).
  constructor.
Defined.

End SentimentFacts.

(** ** Orders and risk: what an accepted order has passed *)

Module OrdersRisk.
Import Orders OrdersFacts OrderBookFacts.
Local Open Scope Q_scope.

Lemma approved_suggestions numberToString st market mint amount price portfolioValue
  riskProfile now :
  Risk.approved (Risk.evaluateTradeRisk numberToString st market mint amount price
                   portfolioValue riskProfile now) = true ->
  Risk.suggestedStopLoss (Risk.evaluateTradeRisk numberToString st market mint amount
                            price portfolioValue riskProfile now)
  = Some (Risk.calculateStopLoss price
            (Risk.stopLossLevel (Risk.getRiskProfile st riskProfile)))
  /\ Risk.suggestedTakeProfit (Risk.evaluateTradeRisk numberToString st market mint
                                amount price portfolioValue riskProfile now)
     = Some (Risk.calculateTakeProfit price
               (Risk.takeProfitLevel (Risk.getRiskProfile st riskProfile))).
Proof.
  unfold Risk.evaluateTradeRisk, Risk.getRiskProfile.
  destruct (_ >=? _)%Z; [discriminate|].
  destruct (Qltb _ _); [discriminate|].
  destruct (Risk.analyzeToken market mint); [|discriminate].
  intros _. split; reflexivity.
Qed.

(** X28.  An order that [createOrder] accepts has passed the risk check of
    the ["default"] profile against the portfolio value of 1000: the pending
    set had room, the amount is at most [1000 * maxPositionSize / 100] (50
    with the built-in profile), and the order is stored as [PENDING], in the
    pending set, with the stop-loss and take-profit prices that the risk
    service derives from the limit price, or from the market price when the
    order has none. *)
Theorem created_order_passed_risk_check st env orderId now mint side type amount
  price strategy st' result :
  createOrder st env orderId now mint side type amount price strategy
  = (st', Some result) ->
  let profile := Risk.getRiskProfile (riskManagement env) "default" in
  let tradePrice := if truthy price then default 0 price else getCurrentPrice env mint in
  result = orderId
  /\ (length (pendingOrders st) < MAX_CONCURRENT_ORDERS)%nat
  /\ amount <= getPortfolioValue * Risk.maxPositionSize profile / 100
  /\ exists order,
       getOrder st' orderId = Some order
       /\ In orderId (pendingOrders st')
       /\ status order = PENDING
       /\ Orders.amount order = amount
       /\ stopLoss order
          = Some (Risk.calculateStopLoss tradePrice (Risk.stopLossLevel profile))
       /\ takeProfit order
          = Some (Risk.calculateTakeProfit tradePrice (Risk.takeProfitLevel profile)).
Proof.
  unfold createOrder. cbn zeta.
  destruct (MAX_CONCURRENT_ORDERS <=? length (pendingOrders st))%nat eqn:Hfull;
    [discriminate|].
  apply Nat.leb_gt in Hfull.
  destruct (Risk.approved _) eqn:Hok; [|discriminate]. cbn [negb].
  intros H. injection H as <- <-.
  pose proof (proj1 (RiskMore.approved_iff _ _ _ _ _ _ _ _ _) Hok)
    as (_ & _ & metrics & _ & Hsize & _).
  destruct (approved_suggestions _ _ _ _ _ _ _ _ _ Hok) as [Hstop Htake].
  split; [reflexivity|]. split; [exact Hfull|]. split; [exact Hsize|].
  eexists. unfold getOrder. cbn [orders pendingOrders].
  rewrite lookup_insert_eq. split; [reflexivity|].
  split; [apply setAdd_In; left; reflexivity|].
  cbn [status Orders.amount stopLoss takeProfit].
  repeat split; assumption.
Qed.

Lemma created_order_passed_risk_check_witness :
  let profile := Risk.getRiskProfile (riskManagement sampleEnv) "default" in
  let tradePrice := if truthy (Some 1) then default 0 (Some 1)
                    else getCurrentPrice sampleEnv "MINT" in
  "order_1"%string = "order_1"%string
  /\ (length (pendingOrders create) < MAX_CONCURRENT_ORDERS)%nat
  /\ 10 <= getPortfolioValue * Risk.maxPositionSize profile / 100
  /\ exists order,
       getOrder sampleService "order_1" = Some order
       /\ In "order_1"%string (pendingOrders sampleService)
       /\ status order = PENDING
       /\ Orders.amount order = 10
       /\ stopLoss order
          = Some (Risk.calculateStopLoss tradePrice (Risk.stopLossLevel profile))
       /\ takeProfit order
          = Some (Risk.calculateTakeProfit tradePrice (Risk.takeProfitLevel profile)).
Proof.
  apply (created_order_passed_risk_check create sampleEnv "order_1" 0 "MINT" BUY MARKET
           10 (Some 1) NORMAL sampleService "order_1").
  reflexivity.
Defined.

End OrdersRisk.
